(** * KeloPay: the blockchain-webhook ingestion pipeline

    A shallow embedding of the webhook receiver
    ([app/api/webhooks/alchemy/route.ts]), of the API helpers
    ([lib/api/utils.ts]) and of the blockchain indexer and transaction
    processor (the second and third parts of [lib/contracts/index.ts], which
    the receiver imports as [lib/blockchain/processor]), with the properties
    of the pipeline proved over it.

    The pipeline is dynamically typed JavaScript: the webhook payload has type
    [any].  The embedding therefore starts with the fragment of the
    JavaScript runtime the pipeline exercises: values, truthiness, property
    reads, [ToString], [parseInt], [BigInt] and [toLowerCase]. *)

From Stdlib Require Import ZArith List String Ascii Bool Lia.
Import ListNotations.

Set Warnings "-register-all".

Local Open Scope string_scope.
Local Open Scope Z_scope.

(** ** Exceptions *)

(** What a [throw] carries.  [handleApiError] tells three kinds apart: a
    [ZodError] (with its issues as field/message pairs), an instance of
    [Error] (with its [name] and [message]) and any other thrown value. *)
Inductive JsError : Type :=
| ZodError (issues : list (string * string))
| ErrorObject (name message : string)
| ThrownValue (description : string).

Definition SyntaxError (msg : string) : JsError := ErrorObject "SyntaxError" msg.
Definition TypeError (msg : string) : JsError := ErrorObject "TypeError" msg.
Definition RangeError (msg : string) : JsError := ErrorObject "RangeError" msg.

(** The outcome of evaluating an expression: a value or a thrown error. *)
Inductive Result (A : Type) : Type :=
| Ok (a : A)
| Throw (e : JsError).
Arguments Ok {A} a.
Arguments Throw {A} e.

Definition rbind {A B} (r : Result A) (k : A -> Result B) : Result B :=
  match r with
  | Ok a => k a
  | Throw e => Throw e
  end.

(** [try { body } catch (error) { handler }] *)
Definition try_catch {A} (body : Result A) (handler : JsError -> Result A) : Result A :=
  match body with
  | Ok a => Ok a
  | Throw e => handler e
  end.

Declare Scope result_scope.
Delimit Scope result_scope with result.
Notation "x <- c ;; k" := (rbind c (fun x => k))
  (at level 61, c at next level, right associativity) : result_scope.

(** ** JavaScript values *)

Module Js.

(** A Number.  The pipeline only produces integral numbers ([parseInt],
    [Date.now()]) and reads numbers out of the JSON payload; the model carries
    the integral ones, [NaN] and the infinities (a payload number with a
    fractional part has no counterpart here).  [NInt z] stands for the double
    whose value is [z]; [round_double] below maps a mathematical integer to
    the one a double can hold. *)
Inductive JsNumber : Type :=
| NaN
| Infinity (negative : bool)
| NInt (z : Z).

Inductive JsVal : Type :=
| JUndefined
| JNull
| JBool (b : bool)
| JNum (n : JsNumber)
| JStr (s : string)
| JArr (items : list JsVal)
| JObj (fields : list (string * JsVal)).

(** [ToBoolean]: the falsy values are [undefined], [null], [false], [0],
    [NaN] and the empty string. *)
Definition truthy (v : JsVal) : bool :=
  match v with
  | JUndefined | JNull => false
  | JBool b => b
  | JNum NaN => false
  | JNum (NInt z) => negb (z =? 0)
  | JNum (Infinity _) => true
  | JStr s => negb (s =? EmptyString)%string
  | JArr _ | JObj _ => true
  end.

(** [a || b] *)
Definition or_else (a b : JsVal) : JsVal := if truthy a then a else b.

Definition nullish (v : JsVal) : bool :=
  match v with
  | JUndefined | JNull => true
  | _ => false
  end.

Fixpoint assoc (k : string) (fields : list (string * JsVal)) : JsVal :=
  match fields with
  | [] => JUndefined
  | (k', v) :: rest => if (k =? k')%string then v else assoc k rest
  end.

(** [v[0]] on a value that is neither [undefined] nor [null]: the first
    element of an array, the first character of a string, the property named
    ["0"] of an object. *)
Definition first_item (v : JsVal) : JsVal :=
  match v with
  | JArr (x :: _) => x
  | JStr (String c _) => JStr (String c EmptyString)
  | JObj fields => assoc "0" fields
  | _ => JUndefined
  end.

(** [v.key], for the keys the pipeline reads ([type], [event], [activity],
    [hash], [blockNum], ...): none of them names an inherited property, so
    only objects answer with something defined.  Reading a property of
    [undefined] or [null] throws a [TypeError]. *)
Definition get (v : JsVal) (key : string) : Result JsVal :=
  match v with
  | JUndefined =>
      Throw (TypeError ("Cannot read properties of undefined (reading '" ++ key ++ "')"))
  | JNull =>
      Throw (TypeError ("Cannot read properties of null (reading '" ++ key ++ "')"))
  | JObj fields => Ok (assoc key fields)
  | _ => Ok JUndefined
  end.

(** [v?.key] *)
Definition get_opt (v : JsVal) (key : string) : JsVal :=
  match v with
  | JObj fields => assoc key fields
  | _ => JUndefined
  end.

(** [v?.[0]] *)
Definition first_item_opt (v : JsVal) : JsVal :=
  if nullish v then JUndefined else first_item v.

(** *** Digits *)

Definition ascii_code (c : ascii) : Z := Z.of_N (N_of_ascii c).

Definition ascii_of_code (z : Z) : ascii := ascii_of_N (Z.to_N z).

(** The value of a digit character, up to radix 36. *)
Definition digit_val (c : ascii) : option Z :=
  let n := ascii_code c in
  if (48 <=? n) && (n <=? 57) then Some (n - 48)
  else if (97 <=? n) && (n <=? 122) then Some (n - 87)
  else if (65 <=? n) && (n <=? 90) then Some (n - 55)
  else None.

Definition digit_char (d : Z) : ascii :=
  if d <? 10 then ascii_of_code (48 + d) else ascii_of_code (87 + d).

Definition radix_digit (R : Z) (c : ascii) : option Z :=
  match digit_val c with
  | Some d => if d <? R then Some d else None
  | None => None
  end.

(** The value of a string made of radix-[R] digits only, continuing from
    [acc]; [None] when another character occurs. *)
Fixpoint digits_value (R : Z) (s : string) (acc : Z) : option Z :=
  match s with
  | EmptyString => Some acc
  | String c s' =>
      match radix_digit R c with
      | Some d => digits_value R s' (acc * R + d)
      | None => None
      end
  end.

(** The value of the longest prefix of radix-[R] digits; [acc] is [None]
    until a digit has been read. *)
Fixpoint digits_prefix (R : Z) (s : string) (acc : option Z) : option Z :=
  match s with
  | EmptyString => acc
  | String c s' =>
      match radix_digit R c with
      | Some d =>
          digits_prefix R s' (Some (match acc with Some a => a * R + d | None => d end))
      | None => acc
      end
  end.

(** The digits of [n] in radix [R], most significant first, in front of
    [rest]. *)
Fixpoint digits_fuel (fuel : nat) (R n : Z) (rest : string) : string :=
  match fuel with
  | O => rest
  | S fuel' =>
      let rest' := String (digit_char (n mod R)) rest in
      if n / R =? 0 then rest' else digits_fuel fuel' R (n / R) rest'
  end.

Definition digits_of (R n : Z) : string :=
  digits_fuel (S (Z.to_nat (Z.log2 n))) R n EmptyString.

(** [BigInt.prototype.toString()]: the decimal digits, with a minus sign
    for a negative integer. *)
Definition Z_toString (z : Z) : string :=
  if z <? 0 then String "-" (digits_of 10 (- z)) else digits_of 10 z.

(** *** White space *)

(** The white space and line terminator characters of the ASCII range. *)
Definition is_space (c : ascii) : bool :=
  let n := ascii_code c in
  ((9 <=? n) && (n <=? 13)) || (n =? 32).

Fixpoint trim_start (s : string) : string :=
  match s with
  | String c s' => if is_space c then trim_start s' else s
  | EmptyString => EmptyString
  end.

Fixpoint all_space (s : string) : bool :=
  match s with
  | EmptyString => true
  | String c s' => is_space c && all_space s'
  end.

Fixpoint trim_end (s : string) : string :=
  match s with
  | EmptyString => EmptyString
  | String c s' => if all_space s then EmptyString else String c (trim_end s')
  end.

Definition trim (s : string) : string := trim_end (trim_start s).

(** *** Conversions *)

(** What is left to the JavaScript engine: the string of an integral Number
    of magnitude 10^21 or more, which [Number.prototype.toString] prints in
    exponent notation with the fewest digits that identify the double. *)
Class Engine : Type := {
  exponent_form : Z -> string
}.

(** [Number.prototype.toString()]: decimal digits below 10^21. *)
Definition Number_toString `{Engine} (n : JsNumber) : string :=
  match n with
  | NaN => "NaN"
  | Infinity false => "Infinity"
  | Infinity true => "-Infinity"
  | NInt z => if Z.abs z <? 10 ^ 21 then Z_toString z else exponent_form z
  end.

(** [ToString].  An array prints its elements separated by commas, with
    [undefined] and [null] elements printed as nothing; an object prints as
    ["[object Object]"]. *)
Fixpoint ToString `{Engine} (v : JsVal) : string :=
  match v with
  | JUndefined => "undefined"
  | JNull => "null"
  | JBool true => "true"
  | JBool false => "false"
  | JNum n => Number_toString n
  | JStr s => s
  | JArr items =>
      (fix join (l : list JsVal) : string :=
         match l with
         | [] => EmptyString
         | x :: rest =>
             let here := if nullish x then EmptyString else ToString x in
             match rest with
             | [] => here
             | _ :: _ => here ++ "," ++ join rest
             end
         end) items
  | JObj _ => "[object Object]"
  end.

(** The double nearest to the mathematical integer [z] (ties to even),
    computed on integers: below 2^53 every integer is a double; above, only
    the 53 leading bits are kept, and the result overflows to an infinity
    from 2^1024 on. *)
Definition round_double (z : Z) : JsNumber :=
  let a := Z.abs z in
  if a <? 2 ^ 53 then NInt z
  else
    let k := Z.log2 a - 52 in
    let q := a / 2 ^ k in
    let r := a mod 2 ^ k in
    let half := 2 ^ (k - 1) in
    let q' := if (half <? r) || ((r =? half) && Z.odd q) then q + 1 else q in
    let m := q' * 2 ^ k in
    if 2 ^ 1024 <=? m then Infinity (z <? 0) else NInt (Z.sgn z * m).

(** A [0x] or [0X] in front of [s], taken off. *)
Definition strip_hex_prefix (s : string) : option string :=
  match s with
  | String c0 (String c1 rest) =>
      if (c0 =? "0")%char && ((c1 =? "x")%char || (c1 =? "X")%char) then Some rest else None
  | _ => None
  end.

(** A leading sign, taken off: whether it was a minus, and what follows. *)
Definition read_sign (s : string) : bool * string :=
  match s with
  | String c rest =>
      if (c =? "-")%char then (true, rest)
      else if (c =? "+")%char then (false, rest)
      else (false, s)
  | EmptyString => (false, s)
  end.

(** [parseInt(v, radix)]; [radix = 0] stands for an omitted radix.  Leading
    white space is skipped, a sign is read, a [0x] prefix is dropped when the
    radix is 16 or omitted, and the longest prefix of digits is the result,
    as the double nearest to its value; no digit gives [NaN].  (Past twenty
    decimal digits an engine may round the digits first; the pipeline only
    compares such a result with the configured chain ids, all far below.) *)
Definition parseInt `{Engine} (v : JsVal) (radix : Z) : JsNumber :=
  let S0 := trim_start (ToString v) in
  let '(negative, S1) := read_sign S0 in
  if negb (radix =? 0) && ((radix <? 2) || (36 <? radix)) then NaN
  else
    let stripPrefix := (radix =? 0) || (radix =? 16) in
    let R := if radix =? 0 then 10 else radix in
    let '(R, S2) :=
      match (if stripPrefix then strip_hex_prefix S1 else None) with
      | Some rest => (16, rest)
      | None => (R, S1)
      end in
    match digits_prefix R S2 None with
    | None => NaN
    | Some mathInt => round_double (if negative then - mathInt else mathInt)
    end.

Definition nonempty_digits (R : Z) (s : string) : option Z :=
  match s with
  | EmptyString => None
  | _ => digits_value R s 0
  end.

(** The radix a [0x], [0o] or [0b] prefix selects, and what follows it. *)
Definition radix_prefix (s : string) : option (Z * string) :=
  match s with
  | String c0 (String c1 rest) =>
      if (c0 =? "0")%char then
        if (c1 =? "x")%char || (c1 =? "X")%char then Some (16, rest)
        else if (c1 =? "o")%char || (c1 =? "O")%char then Some (8, rest)
        else if (c1 =? "b")%char || (c1 =? "B")%char then Some (2, rest)
        else None
      else None
  | _ => None
  end.

(** [StringToBigInt]: white space around the literal is ignored, the empty
    literal is 0, a [0x], [0o] or [0b] prefix selects the radix (and admits no
    sign), anything else is a decimal integer with an optional sign. *)
Definition StringToBigInt (s : string) : option Z :=
  match trim s with
  | EmptyString => Some 0
  | String c rest as t =>
      match radix_prefix t with
      | Some (R, ds) => nonempty_digits R ds
      | None =>
          if (c =? "-")%char then option_map Z.opp (nonempty_digits 10 rest)
          else if (c =? "+")%char then nonempty_digits 10 rest
          else digits_value 10 t 0
      end
  end.

(** [BigInt(v)] *)
Definition BigInt `{Engine} (v : JsVal) : Result Z :=
  match v with
  | JNum (NInt z) => Ok z
  | JNum n =>
      Throw (RangeError ("The number " ++ Number_toString n
                         ++ " cannot be converted to a BigInt because it is not an integer"))
  | JUndefined | JNull =>
      Throw (TypeError ("Cannot convert " ++ ToString v ++ " to a BigInt"))
  | JBool b => Ok (if b then 1 else 0)
  | JStr _ | JArr _ | JObj _ =>
      match StringToBigInt (ToString v) with
      | Some z => Ok z
      | None => Throw (SyntaxError ("Cannot convert " ++ ToString v ++ " to a BigInt"))
      end
  end.

(** [BigInt(n)] for a Number [n] *)
Definition NumberToBigInt `{Engine} (n : JsNumber) : Result Z := BigInt (JNum n).

Definition lower_ascii (c : ascii) : ascii :=
  let n := ascii_code c in
  if (65 <=? n) && (n <=? 90) then ascii_of_code (n + 32) else c.

(** [String.prototype.toLowerCase], on the ASCII letters. *)
Fixpoint lowercase (s : string) : string :=
  match s with
  | EmptyString => EmptyString
  | String c s' => String (lower_ascii c) (lowercase s')
  end.

(** [v.toLowerCase()]: only a string has the method. *)
Definition toLowerCase (v : JsVal) : Result string :=
  match v with
  | JStr s => Ok (lowercase s)
  | JUndefined =>
      Throw (TypeError "Cannot read properties of undefined (reading 'toLowerCase')")
  | JNull =>
      Throw (TypeError "Cannot read properties of null (reading 'toLowerCase')")
  | _ => Throw (TypeError "toLowerCase is not a function")
  end.

(** [v === 'literal'] *)
Definition is_string (v : JsVal) (literal : string) : bool :=
  match v with
  | JStr s => (s =? literal)%string
  | _ => false
  end.

End Js.

Import Js.

(** ** Indexer: the configured networks *)

Module Indexer.

(** The [Network] names of the Alchemy SDK that the configuration uses. *)
Inductive AlchemyNetwork : Type :=
| ETH_MAINNET | ETH_SEPOLIA | BASE_MAINNET | BASE_SEPOLIA | ARB_MAINNET | ARB_SEPOLIA.

Record NetworkConfig : Type := { alchemy : AlchemyNetwork; chainId : Z }.

(** [NETWORK_CONFIG], with its entries in the order [Object.entries] visits
    them. *)
Definition NETWORK_CONFIG : list (string * NetworkConfig) :=
  [ ("ethereum", {| alchemy := ETH_MAINNET; chainId := 1 |});
    ("sepolia", {| alchemy := ETH_SEPOLIA; chainId := 11155111 |});
    ("base", {| alchemy := BASE_MAINNET; chainId := 8453 |});
    ("base-sepolia", {| alchemy := BASE_SEPOLIA; chainId := 84532 |});
    ("arbitrum", {| alchemy := ARB_MAINNET; chainId := 42161 |});
    ("arbitrum-sepolia", {| alchemy := ARB_SEPOLIA; chainId := 421614 |}) ].

(** [config.chainId === chainId] *)
Definition same_chain (config : NetworkConfig) (c : JsNumber) : bool :=
  match c with
  | NInt z => chainId config =? z
  | _ => false
  end.

Fixpoint find_network (entries : list (string * NetworkConfig)) (c : JsNumber) : option string :=
  match entries with
  | [] => None
  | (network, config) :: rest =>
      if same_chain config c then Some network else find_network rest c
  end.

Definition getNetworkFromChainId `{Engine} (c : JsNumber) : Result string :=
  match find_network NETWORK_CONFIG c with
  | Some network => Ok network
  | None => Throw (ErrorObject "Error" ("Unknown chain ID: " ++ Number_toString c))
  end.

Definition SUPPORTED_NETWORKS : list string := map fst NETWORK_CONFIG.

(** The chain ids of the configured networks. *)
Definition configured_chain_ids : list Z := map (fun e => chainId (snd e)) NETWORK_CONFIG.

End Indexer.

(** ** The relational store *)

Module Store.

Inductive UserRole : Type := ADMIN | OPERATIONS | GROWTH | MERCHANT | USER.

Inductive TransactionType : Type :=
| DEPOSIT | WITHDRAWAL | CONVERSION | PAYMENT | TRANSFER | REFUND.

Inductive TransactionStatus : Type :=
| PENDING | CONFIRMED | COMPLETED | FAILED | CANCELLED.

(** A [Date], kept as the value it was constructed from. *)
Inductive JsDate : Type := NewDate (arg : JsVal).

Record User : Type := {
  user_id : nat;
  walletAddress : string;
  role : UserRole
}.

Record Metadata : Type := {
  rawValue : JsVal;
  meta_gasUsed : JsVal;
  meta_gasPrice : JsVal
}.

(** The [data] of [prisma.transaction.create]. *)
Record TransactionData : Type := {
  userId : nat;
  txHash : string;
  blockNumber : Z;
  timestamp : JsDate;
  network : string;
  chainId : JsNumber;
  type : TransactionType;
  status : TransactionStatus;
  fromAddress : string;
  toAddress : string;
  fromTokenSymbol : string;
  fromTokenAddress : string;
  fromTokenAmount : JsVal;
  fromTokenDecimals : Z;
  toFiatCurrency : string;
  toFiatAmount : Z;
  exchangeRate : Z;
  gasFeeWei : string;
  gasFeeUSD : Z;
  platformFeeUSD : Z;
  metadata : Metadata
}.

(** A stored transaction row: the identifier the store gave it and the data
    it was created from. *)
Record Transaction : Type := {
  id : nat;
  data : TransactionData
}.

(** The store: its two tables, rows in insertion order, and the source of
    fresh identifiers. *)
Record State : Type := {
  users : list User;
  transactions : list Transaction;
  fresh : nat
}.

Definition empty : State := {| users := []; transactions := []; fresh := 0 |}.

End Store.

Import Store.

(** ** The host platform

    What the pipeline takes from outside the repository: the JSON parser and
    the keyed hash of the runtime, and the store's own validation of a new
    transaction row (its schema is not part of the sources). *)
Class Platform : Type := {
  (** the JavaScript engine *)
  platform_engine :: Engine;
  (** [JSON.parse(body)]: the parsed value, or the message of the
      [SyntaxError] it throws *)
  JSON_parse_outcome : string -> JsVal + string;
  (** [crypto.createHmac('sha256', key).update(body).digest('hex')] *)
  hmac_sha256_hex : string -> string -> Result string;
  (** whether the store takes the data of a new transaction row *)
  accepts : TransactionData -> bool
}.

(** ** Computations on the store: state passing with exceptions *)

Definition M (A : Type) : Type := State -> Result A * State.

Definition ret {A} (a : A) : M A := fun st => (Ok a, st).

Definition throw {A} (e : JsError) : M A := fun st => (Throw e, st).

Definition lift {A} (r : Result A) : M A := fun st => (r, st).

Definition mbind {A B} (m : M A) (k : A -> M B) : M B :=
  fun st =>
    match m st with
    | (Ok a, st') => k a st'
    | (Throw e, st') => (Throw e, st')
    end.

Definition mtry_catch {A} (body : M A) (handler : JsError -> M A) : M A :=
  fun st =>
    match body st with
    | (Ok a, st') => (Ok a, st')
    | (Throw e, st') => handler e st'
    end.

Declare Scope store_scope.
Delimit Scope store_scope with store.
Notation "x <- c ;; k" := (mbind c (fun x => k))
  (at level 61, c at next level, right associativity) : store_scope.

(** ** The persistence client

    A store that works: a call fails only for a row the store refuses or a
    unique field that is taken. *)

Module Prisma.

Definition ValidationError (msg : string) : JsError :=
  ErrorObject "PrismaClientValidationError" msg.

Definition KnownRequestError (msg : string) : JsError :=
  ErrorObject "PrismaClientKnownRequestError" msg.

Definition find_transaction (h : string) (rows : list Transaction) : option Transaction :=
  find (fun t => (txHash (data t) =? h)%string) rows.

Definition find_user (address : string) (rows : list User) : option User :=
  find (fun u => (walletAddress u =? address)%string) rows.

(** [prisma.transaction.findUnique({ where: { txHash } })] *)
Definition transaction_findUnique (h : string) : M (option Transaction) :=
  fun st => (Ok (find_transaction h (transactions st)), st).

(** [prisma.user.findUnique({ where: { walletAddress } })] *)
Definition user_findUnique (address : string) : M (option User) :=
  fun st => (Ok (find_user address (users st)), st).

(** Modelled from the spec: the schema of the store is not among the
    sources.  The spec keys the user record by the lowercased wallet address,
    and the processor looks users up with [findUnique] on that field, so the
    address is unique in the table.
    [prisma.user.create({ data: { walletAddress, role } })] *)
Definition user_create (address : string) (r : UserRole) : M User :=
  fun st =>
    match find_user address (users st) with
    | Some _ =>
        (Throw (KnownRequestError "Unique constraint failed on the fields: (`walletAddress`)"), st)
    | None =>
        let u := {| user_id := fresh st; walletAddress := address; role := r |} in
        (Ok u, {| users := users st ++ [u];
                  transactions := transactions st;
                  fresh := S (fresh st) |})
    end.

(** Modelled from the spec: the schema of the store is not among the
    sources.  The spec gives the transaction hash as unique, and the
    processor looks rows up with [findUnique] on it; what else the schema asks
    of a row is the platform's [accepts].
    [prisma.transaction.create({ data })] *)
Definition transaction_create `{Platform} (d : TransactionData) : M Transaction :=
  fun st =>
    if negb (accepts d) then
      (Throw (ValidationError "Invalid `prisma.transaction.create()` invocation"), st)
    else
      match find_transaction (txHash d) (transactions st) with
      | Some _ =>
          (Throw (KnownRequestError "Unique constraint failed on the fields: (`txHash`)"), st)
      | None =>
          let t := {| id := fresh st; data := d |} in
          (Ok t, {| users := users st;
                    transactions := transactions st ++ [t];
                    fresh := S (fresh st) |})
      end.

End Prisma.

(** ** Transaction processor *)

Module Processor.

Inductive ProviderStatus : Type := success | failed.

(** [ProcessTransactionInput].  The interface declares [txHash], the
    addresses, [value], [gasUsed] and [gasPrice] as strings, but the parser
    fills them with whatever the payload holds, so they are carried as
    values; [blockNumber] and [chainId] are Numbers. *)
Record ProcessTransactionInput : Type := {
  in_txHash : JsVal;
  in_blockNumber : JsNumber;
  in_timestamp : JsDate;
  in_network : string;
  in_chainId : JsNumber;
  in_fromAddress : JsVal;
  in_toAddress : JsVal;
  in_value : JsVal;
  in_gasUsed : JsVal;
  in_gasPrice : JsVal;
  in_status : ProviderStatus
}.

(** [determineTransactionType]: [BigInt(input.value) > 0] *)
Definition determineTransactionType `{Engine} (input : ProcessTransactionInput)
  : Result TransactionType :=
  (valueInWei <- BigInt (in_value input) ;;
   if valueInWei >? 0 then Ok TRANSFER else Ok CONVERSION)%result.

(** [input.status === 'success' ? COMPLETED : FAILED] *)
Definition transactionStatus_of (s : ProviderStatus) : TransactionStatus :=
  match s with
  | success => COMPLETED
  | failed => FAILED
  end.

(** The lookup by hash.  The client refuses a [where] whose [txHash] is not
    a string. *)
Definition where_txHash (v : JsVal) : Result string :=
  match v with
  | JStr h => Ok h
  | _ => Throw (Prisma.ValidationError "Invalid `prisma.transaction.findUnique()` invocation")
  end.

(** The part of [processTransaction] that runs when the hash is new. *)
Definition storeNewTransaction `{Platform}
    (input : ProcessTransactionInput) (h : string) : M Transaction :=
  (transactionType <- lift (determineTransactionType input) ;;
   let transactionStatus := transactionStatus_of (in_status input) in
   gasUsed <- lift (BigInt (in_gasUsed input)) ;;
   gasPrice <- lift (BigInt (in_gasPrice input)) ;;
   let gasFeeWei := Z_toString (gasUsed * gasPrice) in
   let gasFeeUSD := 0 in
   address <- lift (toLowerCase (in_fromAddress input)) ;;
   found <- Prisma.user_findUnique address ;;
   user <- match found with
           | Some u => ret u
           | None =>
               address' <- lift (toLowerCase (in_fromAddress input)) ;;
               Prisma.user_create address' USER
           end ;;
   let tokenSymbol := "ETH" in
   let tokenAddress := "0x0000000000000000000000000000000000000000" in
   let tokenAmount := in_value input in
   let tokenDecimals := 18 in
   let fiatAmount := 0 in
   let exchangeRate := 0 in
   blockNumber <- lift (NumberToBigInt (in_blockNumber input)) ;;
   fromAddress <- lift (toLowerCase (in_fromAddress input)) ;;
   toAddress <- lift (toLowerCase (in_toAddress input)) ;;
   Prisma.transaction_create
     {| userId := user_id user;
        txHash := h;
        blockNumber := blockNumber;
        timestamp := in_timestamp input;
        network := in_network input;
        chainId := in_chainId input;
        type := transactionType;
        status := transactionStatus;
        fromAddress := fromAddress;
        toAddress := toAddress;
        fromTokenSymbol := tokenSymbol;
        fromTokenAddress := tokenAddress;
        fromTokenAmount := tokenAmount;
        fromTokenDecimals := tokenDecimals;
        toFiatCurrency := "USD";
        toFiatAmount := fiatAmount;
        exchangeRate := exchangeRate;
        gasFeeWei := gasFeeWei;
        gasFeeUSD := gasFeeUSD;
        platformFeeUSD := 0;
        metadata := {| rawValue := in_value input;
                       meta_gasUsed := in_gasUsed input;
                       meta_gasPrice := in_gasPrice input |} |})%store.

(** [processTransaction]: look the hash up, return the stored row when there
    is one, store a new row otherwise.  The [catch] logs and rethrows. *)
Definition processTransaction `{Platform} (input : ProcessTransactionInput) : M Transaction :=
  mtry_catch
    (h <- lift (where_txHash (in_txHash input)) ;;
     existingTx <- Prisma.transaction_findUnique h ;;
     match existingTx with
     | Some tx => ret tx
     | None => storeNewTransaction input h
     end)%store
    (fun error => throw error).

(** [payload.event?.activity?.[0]] *)
Definition first_activity (payload : JsVal) : Result JsVal :=
  (event <- get payload "event" ;;
   Ok (first_item_opt (get_opt event "activity")))%result.

(** The record the parser builds from a (truthy) activity entry; [now] is
    what [Date.now()] reads. *)
Definition buildInput `{Engine} (now : Z) (tx : JsVal) : Result ProcessTransactionInput :=
  (hash <- get tx "hash" ;;
   blockNum <- get tx "blockNum" ;;
   timestamp <- get tx "timestamp" ;;
   chainId1 <- get tx "chainId" ;;
   network <- Indexer.getNetworkFromChainId (parseInt (or_else chainId1 (JStr "1")) 0) ;;
   chainId2 <- get tx "chainId" ;;
   fromAddress <- get tx "fromAddress" ;;
   toAddress <- get tx "toAddress" ;;
   value <- get tx "value" ;;
   gasUsed <- get tx "gasUsed" ;;
   gasPrice <- get tx "gasPrice" ;;
   status <- get tx "status" ;;
   Ok {| in_txHash := hash;
         in_blockNumber := parseInt blockNum 16;
         in_timestamp := NewDate (or_else timestamp (JNum (NInt now)));
         in_network := network;
         in_chainId := parseInt (or_else chainId2 (JStr "1")) 0;
         in_fromAddress := fromAddress;
         in_toAddress := toAddress;
         in_value := or_else value (JStr "0");
         in_gasUsed := or_else gasUsed (JStr "0");
         in_gasPrice := or_else gasPrice (JStr "0");
         in_status := if is_string status "0x1" then success else failed |})%result.

(** [parseAlchemyWebhook]: [null] (here [None]) when the payload has no
    activity entry, and whenever anything inside the [try] throws. *)
Definition parseAlchemyWebhook `{Engine} (now : Z) (payload : JsVal)
  : Result (option ProcessTransactionInput) :=
  try_catch
    (activity <- first_activity payload ;;
     if negb (truthy activity) then Ok None
     else
       let tx := activity in
       input <- buildInput now tx ;;
       Ok (Some input))%result
    (fun error => Ok None).

End Processor.

(** ** API helpers *)

Module ApiUtils.

(** What a successful webhook call reports. *)
Record Processed : Type := {
  processed : bool;
  txHash : string;
  transactionId : nat
}.

Inductive ResponseBody : Type :=
| SuccessBody (data : Processed)
| ErrorBody (error : string) (errors : option (list (string * string))).

Record Response : Type := {
  json : ResponseBody;
  status : Z
}.

Definition successResponse (d : Processed) (st : Z) : Response :=
  {| json := SuccessBody d; status := st |}.

Definition errorResponse (message : string) (st : Z)
    (errors : option (list (string * string))) : Response :=
  {| json := ErrorBody message errors; status := st |}.

Definition handleApiError (error : JsError) : Response :=
  match error with
  | ZodError issues => errorResponse "Validation failed" 400 (Some issues)
  | ErrorObject name message =>
      if (name =? "PrismaClientKnownRequestError")%string
      then errorResponse "Database error" 500 None
      else errorResponse message 500 None
  | ThrownValue _ => errorResponse "An unexpected error occurred" 500 None
  end.

End ApiUtils.

(** ** The webhook endpoint *)

Module Webhook.

Import Processor ApiUtils.

Record Env : Type := { ALCHEMY_WEBHOOK_SECRET : option string }.

Record Request : Type := {
  body : string;
  x_alchemy_signature : option string
}.

Definition JSON_parse `{Platform} (text : string) : Result JsVal :=
  match JSON_parse_outcome text with
  | inl v => Ok v
  | inr msg => Throw (SyntaxError msg)
  end.

(** [crypto.timingSafeEqual] on the bytes of two strings: it throws when
    the lengths differ. *)
Definition timingSafeEqual (a b : string) : Result bool :=
  if (String.length a =? String.length b)%nat then Ok (a =? b)%string
  else Throw (RangeError "Input buffers must have the same byte length").

(** [!s] for a string that may be missing *)
Definition absent (s : option string) : bool :=
  match s with
  | Some t => (t =? EmptyString)%string
  | None => true
  end.

(** The string itself, once it is known not to be missing. *)
Definition text_of (s : option string) : string :=
  match s with
  | Some t => t
  | None => EmptyString
  end.

Definition verifyWebhookSignature `{Platform}
    (env : Env) (body : string) (signature : option string) : Result bool :=
  let signingKey := ALCHEMY_WEBHOOK_SECRET env in
  if absent signingKey then Ok true
  else if absent signature then Ok false
  else
    try_catch
      (digest <- hmac_sha256_hex (text_of signingKey) body ;;
       timingSafeEqual (text_of signature) digest)%result
      (fun error => Ok false).

(** The body of the [try] of [POST]. *)
Definition POST_try `{Platform} (env : Env) (now : Z) (request : Request) : M Response :=
  (let body := body request in
   payload <- lift (JSON_parse body) ;;
   let signature := x_alchemy_signature request in
   verified <- lift (verifyWebhookSignature env body signature) ;;
   if negb verified then ret (errorResponse "Invalid signature" 401 None)
   else
     type <- lift (get payload "type") ;;
     transactionData <- lift (parseAlchemyWebhook now payload) ;;
     match transactionData with
     | None => ret (errorResponse "Invalid webhook payload" 400 None)
     | Some input =>
         transaction <- processTransaction input ;;
         ret (successResponse
                {| processed := true;
                   txHash := Store.txHash (data transaction);
                   transactionId := id transaction |}
                200)
     end)%store.

(** [POST /api/webhooks/alchemy]: whatever is thrown inside the [try] is
    answered through [handleApiError]. *)
Definition POST `{Platform} (env : Env) (now : Z) (request : Request)
  : State -> Response * State :=
  fun st =>
    match POST_try env now request st with
    | (Ok response, st') => (response, st')
    | (Throw error, st') => (handleApiError error, st')
    end.

End Webhook.

(** ** A platform and payloads for the worked examples *)

Module Demo.

Import Processor Webhook.

(** An activity entry as the provider sends it. *)
Definition activity_entry (hash blockNum fromAddress toAddress value gasUsed gasPrice status : string)
    (chain : JsVal) : JsVal :=
  JObj [ ("hash", JStr hash);
         ("blockNum", JStr blockNum);
         ("fromAddress", JStr fromAddress);
         ("toAddress", JStr toAddress);
         ("value", JStr value);
         ("gasUsed", JStr gasUsed);
         ("gasPrice", JStr gasPrice);
         ("status", JStr status);
         ("chainId", chain);
         ("timestamp", JStr "2025-01-15T10:00:00Z") ].

Definition envelope (entry : JsVal) : JsVal :=
  JObj [ ("type", JStr "ADDRESS_ACTIVITY");
         ("event", JObj [ ("activity", JArr [entry]) ]) ].

Definition alice : string := "0xAbCd000000000000000000000000000000001234".
Definition bob : string := "0x00000000000000000000000000000000000000b0".

(** One ether sent with success. *)
Definition transfer_entry : JsVal :=
  activity_entry "0xaaa1" "0x10d4f" alice bob
    "1000000000000000000" "21000" "30000000000" "0x1" (JNum (NInt 1)).

(** A failed call that carries no value. *)
Definition call_entry : JsVal :=
  activity_entry "0xbbb2" "0x10d50" alice bob "0" "21000" "30000000000" "0x0" (JNum (NInt 8453)).

(** An entry whose chain id is the number 0. *)
Definition chain0_entry : JsVal :=
  activity_entry "0xccc3" "0x10d51" alice bob "5" "21000" "30000000000" "0x1" (JNum (NInt 0)).

(** An entry whose block number is 2^53 + 1. *)
Definition far_block_entry : JsVal :=
  activity_entry "0xddd4" "0x20000000000001" alice bob "5" "21000" "30000000000" "0x1" (JStr "1").

(** The engine of the examples: its exponent notation prints the leading
    digit and the exponent, which is what the powers of ten need. *)
#[export] Instance engine : Engine := {|
  exponent_form := fun z =>
    let digits := digits_of 10 (Z.abs z) in
    (if z <? 0 then "-" else EmptyString)
    ++ substring 0 1 digits ++ "e+" ++ Z_toString (Z.of_nat (String.length digits) - 1)
|}.

(** [JSON.stringify], for values whose strings need no escaping. *)
Fixpoint stringify (v : JsVal) : string :=
  let quoted (s : string) := String "034" (s ++ String "034" EmptyString) in
  match v with
  | JUndefined | JNull => "null"
  | JBool true => "true"
  | JBool false => "false"
  | JNum (NInt z) => Number_toString (NInt z)
  | JNum _ => "null"
  | JStr s => quoted s
  | JArr items =>
      "[" ++ (fix elements (l : list JsVal) : string :=
                match l with
                | [] => EmptyString
                | x :: rest =>
                    match rest with
                    | [] => stringify x
                    | _ :: _ => stringify x ++ "," ++ elements rest
                    end
                end) items ++ "]"
  | JObj fields =>
      "{" ++ (fix members (l : list (string * JsVal)) : string :=
                match l with
                | [] => EmptyString
                | (k, x) :: rest =>
                    match rest with
                    | [] => quoted k ++ ":" ++ stringify x
                    | _ :: _ => quoted k ++ ":" ++ stringify x ++ "," ++ members rest
                    end
                end) fields ++ "}"
  end.

(** An entry from chain 137, which is not configured. *)
Definition polygon_entry : JsVal :=
  activity_entry "0xeee5" "0x10d52" alice bob "5" "21000" "30000000000" "0x1" (JNum (NInt 137)).

(** An entry whose sender is [alice] written in capitals. *)
Definition capitals_entry : JsVal :=
  activity_entry "0xfff6" "0x10d53" "0XABCD000000000000000000000000000000001234" bob
    "7" "21000" "30000000000" "0x1" (JStr "8453").

(** The payloads whose JSON text the example parser knows. *)
Definition known_payloads : list JsVal :=
  [ envelope transfer_entry; envelope call_entry; envelope chain0_entry;
    envelope far_block_entry; envelope polygon_entry; envelope capitals_entry;
    JNull; JObj [] ].

Definition checksum (s : string) : Z :=
  fold_left (fun acc c => (acc * 31 + ascii_code c) mod 2 ^ 64) (list_ascii_of_string s) 7.

(** The platform of the examples.  Its JSON parser answers on the texts of
    [known_payloads] and reports a syntax error elsewhere; a checksum stands
    in for the keyed hash; the store takes every row. *)
#[export] Instance platform : Platform := {|
  platform_engine := engine;
  JSON_parse_outcome := fun text =>
    match find (fun v => (stringify v =? text)%string) known_payloads with
    | Some v => inl v
    | None => inr "Unexpected token in JSON at position 0"
    end;
  hmac_sha256_hex := fun key body => Ok (digits_of 16 (checksum (key ++ body)));
  accepts := fun _ => true
|}.

Definition request_of (payload : JsVal) (signature : option string) : Request :=
  {| body := stringify payload; x_alchemy_signature := signature |}.

Definition no_secret : Env := {| ALCHEMY_WEBHOOK_SECRET := None |}.

Definition with_secret : Env := {| ALCHEMY_WEBHOOK_SECRET := Some "whsec_test" |}.

(** A body that is not JSON, sent without a signature. *)
Definition garbage_request : Request :=
  {| body := "garbage"; x_alchemy_signature := None |}.

(** The store after the transfer has been delivered to an empty store. *)
Definition after_transfer : State :=
  snd (POST no_secret 1000 (request_of (envelope transfer_entry) None) Store.empty).

End Demo.

(** ** Indexer: lookups by network name *)

Module IndexerLookups.

Import Indexer.

(** The property names an object literal inherits from [Object.prototype]:
    [NETWORK_CONFIG[name]] is a function (or the prototype itself) for these,
    and [undefined] for any other name that is not a key of the table. *)
Definition Object_prototype_names : list string :=
  [ "constructor"; "__defineGetter__"; "__defineSetter__"; "hasOwnProperty";
    "__lookupGetter__"; "__lookupSetter__"; "isPrototypeOf";
    "propertyIsEnumerable"; "toString"; "valueOf"; "__proto__"; "toLocaleString" ].

(** What [NETWORK_CONFIG[network]] finds. *)
Inductive ConfigLookup : Type :=
| OwnEntry (config : NetworkConfig)
| InheritedProperty
| NoProperty.

Fixpoint own_entry (network : string) (entries : list (string * NetworkConfig))
  : option NetworkConfig :=
  match entries with
  | [] => None
  | (name, config) :: rest =>
      if (network =? name)%string then Some config else own_entry network rest
  end.

Definition lookup (network : string) : ConfigLookup :=
  match own_entry network NETWORK_CONFIG with
  | Some config => OwnEntry config
  | None =>
      if existsb (String.eqb network) Object_prototype_names
      then InheritedProperty else NoProperty
  end.

(** [getChainId]: [config.chainId] of an inherited property is
    [undefined]. *)
Definition getChainId (network : string) : Result JsVal :=
  match lookup network with
  | OwnEntry config => Ok (JNum (NInt (Indexer.chainId config)))
  | InheritedProperty => Ok JUndefined
  | NoProperty => Throw (ErrorObject "Error" ("Unsupported network: " ++ network))
  end.

(** [SUPPORTED_NETWORKS.includes(network)] *)
Definition isSupportedNetwork (network : string) : bool :=
  existsb (String.eqb network) SUPPORTED_NETWORKS.

End IndexerLookups.

(** ** Transaction processor: the later status update *)

Module Lifecycle.

(** The store together with the two columns of the transaction table that
    only [updateTransactionStatus] writes, kept beside the table and keyed by
    the row identifier, the latest write first. *)
Record Tracked : Type := {
  store : State;
  errorMessages : list (nat * string);
  updatedAts : list (nat * Z)
}.

Fixpoint column {A : Type} (row : nat) (cells : list (nat * A)) : option A :=
  match cells with
  | [] => None
  | (k, v) :: rest => if (k =? row)%nat then Some v else column row rest
  end.

(** The row with its status replaced. *)
Definition with_status (s : TransactionStatus) (t : Transaction) : Transaction :=
  let d := data t in
  {| id := id t;
     data := {| userId := userId d;
                txHash := txHash d;
                blockNumber := blockNumber d;
                timestamp := timestamp d;
                network := network d;
                chainId := chainId d;
                type := type d;
                status := s;
                fromAddress := fromAddress d;
                toAddress := toAddress d;
                fromTokenSymbol := fromTokenSymbol d;
                fromTokenAddress := fromTokenAddress d;
                fromTokenAmount := fromTokenAmount d;
                fromTokenDecimals := fromTokenDecimals d;
                toFiatCurrency := toFiatCurrency d;
                toFiatAmount := toFiatAmount d;
                exchangeRate := exchangeRate d;
                gasFeeWei := gasFeeWei d;
                gasFeeUSD := gasFeeUSD d;
                platformFeeUSD := platformFeeUSD d;
                metadata := metadata d |} |}.

(** The table with the status of the row that carries [h] replaced. *)
Fixpoint update_row (h : string) (s : TransactionStatus) (rows : list Transaction)
  : list Transaction :=
  match rows with
  | [] => []
  | t :: rest =>
      if (txHash (data t) =? h)%string then with_status s t :: rest
      else t :: update_row h s rest
  end.

(** [updateTransactionStatus(txHash, status, errorMessage?)], at the time
    [now]: the update of a row that does not exist is refused by the store;
    an [errorMessage] left out is [undefined] in the data, which leaves the
    column as it is. *)
Definition updateTransactionStatus (h : string) (s : TransactionStatus)
    (errorMessage : option string) (now : Z) (tr : Tracked)
  : Result Transaction * Tracked :=
  match Prisma.find_transaction h (transactions (store tr)) with
  | None =>
      (Throw (Prisma.KnownRequestError
                "An operation failed because it depends on one or more records that were required but not found. Record to update not found."),
       tr)
  | Some t =>
      (Ok (with_status s t),
       {| store := {| users := users (store tr);
                      transactions := update_row h s (transactions (store tr));
                      fresh := fresh (store tr) |};
          errorMessages := match errorMessage with
                           | Some message => (id t, message) :: errorMessages tr
                           | None => errorMessages tr
                           end;
          updatedAts := (id t, now) :: updatedAts tr |})
  end.

End Lifecycle.

(** ** The user endpoint: lookup by wallet address *)

Module UserApi.

(** What [GET /api/user] answers with: the user found, in the columns the
    model carries, or an error message. *)
Inductive UserResponseBody : Type :=
| UserBody (user : User)
| UserErrorBody (error : string).

Record UserResponse : Type := {
  user_json : UserResponseBody;
  user_status : Z
}.

Fixpoint all_hex (s : string) : bool :=
  match s with
  | EmptyString => true
  | String c rest =>
      match radix_digit 16 c with
      | Some _ => all_hex rest
      | None => false
      end
  end.

(** [/^0x[a-fA-F0-9]{40}$/.test(address)] *)
Definition address_format (address : string) : bool :=
  match address with
  | String c0 (String c1 rest) =>
      (c0 =? "0")%char && (c1 =? "x")%char
      && (String.length rest =? 40)%nat && all_hex rest
  | _ => false
  end.

(** [GET /api/user?address=...]; [address] is what
    [searchParams.get('address')] gives. *)
Definition GET (address : option string) (st : State) : UserResponse :=
  if Webhook.absent address then
    {| user_json := UserErrorBody "Wallet address is required"; user_status := 400 |}
  else if negb (address_format (Webhook.text_of address)) then
    {| user_json := UserErrorBody "Invalid wallet address format"; user_status := 400 |}
  else
    match Prisma.find_user (lowercase (Webhook.text_of address)) (users st) with
    | None => {| user_json := UserErrorBody "User not found"; user_status := 404 |}
    | Some user => {| user_json := UserBody user; user_status := 200 |}
    end.

End UserApi.

(** ** Further payloads for the worked examples *)

Module Scenarios.

Import Demo.

(** A contract creation: the entry has no recipient. *)
Definition creation_entry : JsVal :=
  JObj [ ("hash", JStr "0x9991");
         ("blockNum", JStr "0x10d60");
         ("fromAddress", JStr alice);
         ("toAddress", JNull);
         ("value", JStr "0");
         ("gasUsed", JStr "53000");
         ("gasPrice", JStr "30000000000");
         ("status", JStr "0x1");
         ("chainId", JStr "1") ].

(** An entry that reports neither value nor gas. *)
Definition bare_entry : JsVal :=
  JObj [ ("hash", JStr "0x9992");
         ("blockNum", JStr "0x10d61");
         ("fromAddress", JStr alice);
         ("toAddress", JStr bob);
         ("status", JStr "0x1") ].

(** Two activity entries in one delivery. *)
Definition batch : JsVal :=
  JObj [ ("type", JStr "ADDRESS_ACTIVITY");
         ("event", JObj [ ("activity", JArr [transfer_entry; call_entry]) ]) ].

(** The records the parser builds from the entries, at time 1000. *)
Definition transfer_input : Processor.ProcessTransactionInput :=
  {| Processor.in_txHash := JStr "0xaaa1";
     Processor.in_blockNumber := NInt 68943;
     Processor.in_timestamp := NewDate (JStr "2025-01-15T10:00:00Z");
     Processor.in_network := "ethereum";
     Processor.in_chainId := NInt 1;
     Processor.in_fromAddress := JStr alice;
     Processor.in_toAddress := JStr bob;
     Processor.in_value := JStr "1000000000000000000";
     Processor.in_gasUsed := JStr "21000";
     Processor.in_gasPrice := JStr "30000000000";
     Processor.in_status := Processor.success |}.

Definition creation_input : Processor.ProcessTransactionInput :=
  {| Processor.in_txHash := JStr "0x9991";
     Processor.in_blockNumber := NInt 68960;
     Processor.in_timestamp := NewDate (JNum (NInt 1000));
     Processor.in_network := "ethereum";
     Processor.in_chainId := NInt 1;
     Processor.in_fromAddress := JStr alice;
     Processor.in_toAddress := JNull;
     Processor.in_value := JStr "0";
     Processor.in_gasUsed := JStr "53000";
     Processor.in_gasPrice := JStr "30000000000";
     Processor.in_status := Processor.success |}.

Definition bare_input : Processor.ProcessTransactionInput :=
  {| Processor.in_txHash := JStr "0x9992";
     Processor.in_blockNumber := NInt 68961;
     Processor.in_timestamp := NewDate (JNum (NInt 1000));
     Processor.in_network := "ethereum";
     Processor.in_chainId := NInt 1;
     Processor.in_fromAddress := JStr alice;
     Processor.in_toAddress := JStr bob;
     Processor.in_value := JStr "0";
     Processor.in_gasUsed := JStr "0";
     Processor.in_gasPrice := JStr "0";
     Processor.in_status := Processor.success |}.

(** [alice] with her digits in capitals. *)
Definition alice_capitals : string := "0xABCD000000000000000000000000000000001234".

(** A store that already tracks a failed row. *)
Definition tracked_after_transfer : Lifecycle.Tracked :=
  {| Lifecycle.store := after_transfer;
     Lifecycle.errorMessages := [(1%nat, "execution reverted")];
     Lifecycle.updatedAts := [] |}.

End Scenarios.

(** ** Vocabulary of the properties *)

(** [s] is a hexadecimal numeral of [n]: one digit at least, digits only. *)
Definition hex_numeral (s : string) (n : Z) : Prop :=
  s <> EmptyString /\ digits_value 16 s 0 = Some n.

(** The hashes of the stored transactions are pairwise distinct. *)
Definition hash_unique (st : State) : Prop :=
  NoDup (map (fun t => Store.txHash (data t)) (transactions st)).

(** The stored rows that carry the hash [h]. *)
Definition rows_with_hash (h : string) (st : State) : list Transaction :=
  filter (fun t => (Store.txHash (data t) =? h)%string) (transactions st).

(** The payload has no usable first activity entry: [event.activity[0]] is
    missing (or falsy), or the payload itself is [null]. *)
Definition no_activity (payload : JsVal) : Prop :=
  match Processor.first_activity payload with
  | Ok entry => truthy entry = false
  | Throw _ => True
  end.

(** The chain id the parser reads off an activity entry:
    [parseInt(tx.chainId || '1')]. *)
Definition chain_read `{Engine} (chain : JsVal) : JsNumber :=
  parseInt (or_else chain (JStr "1")) 0.

(** The number is the chain id of one of the configured networks. *)
Definition configured (c : JsNumber) : Prop :=
  exists z, c = NInt z /\ In z Indexer.configured_chain_ids.

(** The signature header is missing, or is not the keyed hash of the body. *)
Definition bad_signature `{Platform} (key body : string) (signature : option string) : Prop :=
  Webhook.absent signature = true \/ hmac_sha256_hex key body <> Ok (Webhook.text_of signature).

(** The store with one more user, and with one more transaction. *)
Definition with_user (u : User) (st : State) : State :=
  {| users := users st ++ [u]; transactions := transactions st; fresh := S (fresh st) |}.

Definition with_transaction (t : Transaction) (st : State) : State :=
  {| users := users st; transactions := transactions st ++ [t]; fresh := S (fresh st) |}.

(** Every identifier in use is below the next fresh one, and identifiers,
    wallet addresses and hashes are pairwise distinct. *)
Definition identifiers_sound (st : State) : Prop :=
  (forall u, In u (users st) -> (user_id u < fresh st)%nat)
  /\ (forall t, In t (transactions st) -> (id t < fresh st)%nat)
  /\ NoDup (map user_id (users st))
  /\ NoDup (map id (transactions st))
  /\ NoDup (map walletAddress (users st))
  /\ hash_unique st.

(** Every transaction refers to a stored user, and that user's wallet
    address is the sender address of the transaction. *)
Definition owner_known (st : State) : Prop :=
  forall t, In t (transactions st) ->
    exists u, In u (users st)
      /\ user_id u = userId (data t)
      /\ walletAddress u = fromAddress (data t).

(** Every stored address is in lower case. *)
Definition addresses_lowercase (st : State) : Prop :=
  (forall u, In u (users st) -> lowercase (walletAddress u) = walletAddress u)
  /\ (forall t, In t (transactions st) ->
        lowercase (fromAddress (data t)) = fromAddress (data t)
        /\ lowercase (toAddress (data t)) = toAddress (data t)).

(** The error is a known request error of the store, the kind
    [handleApiError] reports as Database error. *)
Definition request_error (e : JsError) : Prop :=
  exists msg, e = Prisma.KnownRequestError msg.

(** * Properties *)

(** ** Numerals: printing and reading back *)

Section Numerals.

Variable R : Z.
Hypothesis radix_range : 2 <= R <= 36.

Lemma digit_val_char (d : Z) : 0 <= d < 36 -> digit_val (digit_char d) = Some d.
Proof.
  intros Hd.
  destruct d as [|p|p]; [reflexivity| |lia].
  do 6 (destruct p as [p|p|]; try lia; try reflexivity).
Qed.

Lemma radix_digit_char (d : Z) : 0 <= d < R -> radix_digit R (digit_char d) = Some d.
Proof.
  intros Hd. unfold radix_digit.
  rewrite digit_val_char by lia.
  destruct (Z.ltb_spec d R); [reflexivity|lia].
Qed.


(** Printing [n] in front of [rest] and reading the result back from [a]
    is reading [rest] back from [a] shifted by the digits of [n]. *)
Lemma digits_fuel_value (fuel : nat) :
  forall n rest, 0 <= n < 2 ^ Z.of_nat fuel ->
    exists m, 0 <= m /\
      forall a, digits_value R (digits_fuel fuel R n rest) a
                = digits_value R rest (a * R ^ m + n).
Proof.
  induction fuel as [|fuel IH]; intros n rest Hn.
  - exists 0. split; [lia|]. intros a. simpl in *.
    replace (a * 1 + n) with a by lia. reflexivity.
  - assert (Hmod : 0 <= n mod R < R) by (apply Z.mod_pos_bound; lia).
    assert (Hdiv : 0 <= n / R < 2 ^ Z.of_nat fuel).
    { split; [apply Z.div_pos; lia|].
      apply Z.div_lt_upper_bound; [lia|].
      rewrite Nat2Z.inj_succ, Z.pow_succ_r in Hn by lia. nia. }
    assert (Hn' : n = R * (n / R) + n mod R) by (apply Z.div_mod; lia).
    cbn [digits_fuel].
    destruct (Z.eqb_spec (n / R) 0) as [E|E].
    + exists 1. split; [lia|]. intros a. cbn [digits_value].
      rewrite radix_digit_char by lia.
      f_equal. rewrite Z.pow_1_r. lia.
    + destruct (IH (n / R) (String (digit_char (n mod R)) rest) Hdiv) as (m & Hm & Hval).
      exists (m + 1). split; [lia|]. intros a.
      rewrite Hval. cbn [digits_value].
      rewrite radix_digit_char by lia.
      f_equal. rewrite Z.pow_add_r, Z.pow_1_r by lia. lia.
Qed.

Lemma digits_of_value (n : Z) : 0 <= n -> digits_value R (digits_of R n) 0 = Some n.
Proof.
  intros Hn. unfold digits_of.
  assert (Hb : 0 <= n < 2 ^ Z.of_nat (S (Z.to_nat (Z.log2 n)))).
  { split; [lia|].
    rewrite Nat2Z.inj_succ, Z2Nat.id by apply Z.log2_nonneg.
    destruct (Z.eq_dec n 0) as [->|]; [reflexivity|].
    apply Z.log2_spec. lia. }
  destruct (digits_fuel_value _ n EmptyString Hb) as (m & _ & Hval).
  rewrite Hval. reflexivity.
Qed.

Lemma digits_fuel_nonempty (fuel : nat) (n : Z) (rest : string) :
  digits_fuel (S fuel) R n rest <> EmptyString.
Proof.
  revert n rest. induction fuel as [|fuel IH]; intros n rest; cbn [digits_fuel].
  - destruct (n / R =? 0); discriminate.
  - destruct (n / R =? 0); [discriminate|]. apply IH.
Qed.

Lemma digits_of_nonempty (n : Z) : digits_of R n <> EmptyString.
Proof. apply digits_fuel_nonempty. Qed.




End Numerals.

(** ** Decimal literals and [BigInt] *)










(** ** Hexadecimal numerals and [parseInt] *)

Lemma hex_numeral_digits_of (n : Z) : 0 <= n -> hex_numeral (digits_of 16 n) n.
Proof.
  intros Hn. split.
  - apply digits_of_nonempty.
  - apply digits_of_value; lia.
Qed.






(** ** The store under [processTransaction] *)

Local Open Scope list_scope.

(** One step of a run: case analysis on the outcome the hypothesis [H]
    branches on first. *)
Ltac run_step H :=
  match type of H with
  | context [match ?x with Ok _ => _ | Throw _ => _ end] =>
      let E := fresh "E" in destruct x eqn:E; cbn beta iota in H
  | context [match ?x with Some _ => _ | None => _ end] =>
      let E := fresh "E" in destruct x eqn:E; cbn beta iota in H
  | context [if ?x then _ else _] =>
      let E := fresh "E" in destruct x eqn:E; cbn beta iota in H
  end.

Ltac run_inv H := inversion H; subst; clear H.

Lemma find_transaction_hash (h : string) (rows : list Transaction) (t : Transaction) :
  Prisma.find_transaction h rows = Some t -> Store.txHash (data t) = h /\ In t rows.
Proof.
  unfold Prisma.find_transaction. intros Hf.
  apply find_some in Hf. destruct Hf as [Hin Heq].
  apply String.eqb_eq in Heq. auto.
Qed.

Lemma find_transaction_app (h : string) (rows : list Transaction) (t : Transaction) :
  Prisma.find_transaction h rows = None -> Store.txHash (data t) = h ->
  Prisma.find_transaction h (rows ++ [t]) = Some t.
Proof.
  unfold Prisma.find_transaction. intros Hnone Hh.
  induction rows as [|r rows IH]; cbn in *.
  - rewrite Hh, String.eqb_refl. reflexivity.
  - destruct (Store.txHash (data r) =? h)%string; [discriminate|]. apply IH, Hnone.
Qed.

Lemma find_transaction_none (h : string) (rows : list Transaction) :
  Prisma.find_transaction h rows = None ->
  ~ In h (map (fun t => Store.txHash (data t)) rows).
Proof.
  unfold Prisma.find_transaction. intros Hnone Hin.
  apply in_map_iff in Hin. destruct Hin as (t & Ht & Hin).
  apply (find_none _ _ Hnone) in Hin. cbn in Hin.
  rewrite Ht, String.eqb_refl in Hin. discriminate.
Qed.

(** In a table with distinct hashes the lookup by hash finds the row that
    carries it. *)
Lemma find_transaction_unique (rows : list Transaction) (t : Transaction) :
  NoDup (map (fun t => Store.txHash (data t)) rows) -> In t rows ->
  Prisma.find_transaction (Store.txHash (data t)) rows = Some t.
Proof.
  unfold Prisma.find_transaction.
  induction rows as [|r rows IH]; intros Hnd Hin; [contradiction|].
  cbn in *. inversion Hnd as [|? ? Hnotin Hnd']; subst.
  destruct Hin as [->|Hin].
  - rewrite String.eqb_refl. reflexivity.
  - destruct (String.eqb_spec (Store.txHash (data r)) (Store.txHash (data t))) as [Heq|_].
    + exfalso. apply Hnotin. rewrite Heq. apply in_map_iff. eauto.
    + apply IH; assumption.
Qed.

Lemma rows_with_hash_unique (h : string) (rows : list Transaction) :
  NoDup (map (fun t => Store.txHash (data t)) rows) ->
  In h (map (fun t => Store.txHash (data t)) rows) ->
  List.length (filter (fun t => (Store.txHash (data t) =? h)%string) rows) = 1%nat.
Proof.
  induction rows as [|r rows IH]; intros Hnd Hin; [contradiction|].
  cbn in *. inversion Hnd as [|? ? Hnotin Hnd']; subst.
  destruct (String.eqb_spec (Store.txHash (data r)) h) as [Heq|Hneq].
  - cbn. f_equal. rewrite Heq in Hnotin.
    assert (Hnil : forall l, ~ In h (map (fun t => Store.txHash (data t)) l) ->
                     filter (fun t => (Store.txHash (data t) =? h)%string) l = []).
    { induction l as [|x l IHl]; intros Hx; [reflexivity|]. cbn in *.
      destruct (String.eqb_spec (Store.txHash (data x)) h); [tauto|].
      apply IHl. tauto. }
    rewrite Hnil by assumption. reflexivity.
  - destruct Hin as [?|Hin]; [contradiction|]. apply IH; assumption.
Qed.

Lemma find_user_app (a : string) (rows : list User) (u : User) :
  Prisma.find_user a rows = None -> walletAddress u = a ->
  Prisma.find_user a (rows ++ [u]) = Some u.
Proof.
  unfold Prisma.find_user. intros Hnone Ha.
  induction rows as [|r rows IH]; cbn in *.
  - rewrite Ha, String.eqb_refl. reflexivity.
  - destruct (walletAddress r =? a)%string; [discriminate|]. apply IH, Hnone.
Qed.

Section Pipeline.

Context `{P : Platform}.

Import Processor ApiUtils Webhook.

(** What a run of [storeNewTransaction] does to the user table, however it
    ends: nothing, or one new user with the lowercased sender address and the
    role USER. *)
Lemma storeNewTransaction_users (input : ProcessTransactionInput) (h : string)
    (st st' : State) (r : Result Transaction) :
  storeNewTransaction input h st = (r, st') ->
  users st' = users st
  \/ exists a, toLowerCase (in_fromAddress input) = Ok a
       /\ Prisma.find_user a (users st) = None
       /\ users st' = users st ++ [{| user_id := fresh st; walletAddress := a; role := USER |}].
Proof.
  unfold storeNewTransaction, mbind, lift, ret, Prisma.user_findUnique,
    Prisma.user_create, Prisma.transaction_create.
  intros Hrun. cbn beta iota in Hrun.
  repeat (run_step Hrun; try (run_inv Hrun; auto; fail));
    cbn in *; try (run_inv Hrun; cbn; eauto 6; fail).
Qed.

(** What a run of [storeNewTransaction] that returns a row has done. *)
Lemma storeNewTransaction_ok (input : ProcessTransactionInput) (h : string)
    (st st' : State) (t : Transaction) :
  storeNewTransaction input h st = (Ok t, st') ->
  exists ty g p a b toA u,
    determineTransactionType input = Ok ty
    /\ BigInt (in_gasUsed input) = Ok g
    /\ BigInt (in_gasPrice input) = Ok p
    /\ toLowerCase (in_fromAddress input) = Ok a
    /\ NumberToBigInt (in_blockNumber input) = Ok b
    /\ toLowerCase (in_toAddress input) = Ok toA
    /\ Prisma.find_user a (users st') = Some u
    /\ (Prisma.find_user a (users st) = Some u /\ users st' = users st
        \/ Prisma.find_user a (users st) = None
           /\ u = {| user_id := fresh st; walletAddress := a; role := USER |}
           /\ users st' = users st ++ [u])
    /\ Prisma.find_transaction h (transactions st) = None
    /\ transactions st' = transactions st ++ [t]
    /\ accepts (data t) = true
    /\ Store.txHash (data t) = h
    /\ userId (data t) = user_id u
    /\ type (data t) = ty
    /\ Store.status (data t) = transactionStatus_of (in_status input)
    /\ gasFeeWei (data t) = Z_toString (g * p)
    /\ blockNumber (data t) = b
    /\ fromAddress (data t) = a
    /\ toAddress (data t) = toA
    /\ fromTokenAmount (data t) = in_value input
    /\ metadata (data t) = {| rawValue := in_value input;
                              meta_gasUsed := in_gasUsed input;
                              meta_gasPrice := in_gasPrice input |}.
Proof.
  unfold storeNewTransaction, mbind, lift, ret, Prisma.user_findUnique,
    Prisma.user_create, Prisma.transaction_create.
  intros Hrun. cbn beta iota in Hrun.
  repeat (run_step Hrun; try discriminate Hrun).
  all: cbn in *; run_inv Hrun; cbn.
  all: match goal with
       | Hacc : negb (accepts ?d) = false |- _ => apply negb_false_iff in Hacc
       end.
  - do 7 eexists. repeat (split; [eassumption || reflexivity|]).
    split; [left; split; [eassumption|reflexivity]|].
    repeat (split; [eassumption || reflexivity|]). reflexivity.
  - do 7 eexists. repeat (split; [eassumption || reflexivity|]).
    split.
    { apply find_user_app; [assumption|reflexivity]. }
    split; [right; repeat split; assumption|].
    repeat (split; [eassumption || reflexivity|]). reflexivity.
Qed.

Lemma BigInt_throw (v : JsVal) (e : JsError) :
  BigInt v = Throw e -> exists name msg, e = ErrorObject name msg.
Proof.
  unfold BigInt, TypeError, RangeError, SyntaxError. intros Hv.
  destruct v as [| |b|[|neg|z]|s|items|fields];
    try destruct (StringToBigInt _); inversion Hv; eauto.
Qed.

Lemma toLowerCase_throw (v : JsVal) (e : JsError) :
  toLowerCase v = Throw e -> exists name msg, e = ErrorObject name msg.
Proof.
  unfold toLowerCase, TypeError. intros Hv. destruct v; inversion Hv; eauto.
Qed.

Lemma determineTransactionType_throw (input : ProcessTransactionInput) (e : JsError) :
  determineTransactionType input = Throw e -> exists name msg, e = ErrorObject name msg.
Proof.
  unfold determineTransactionType, rbind. intros Hv.
  destruct (BigInt (in_value input)) eqn:Hb.
  - destruct (a >? 0); discriminate.
  - inversion Hv; subst. eapply BigInt_throw, Hb.
Qed.

Lemma storeNewTransaction_throw (input : ProcessTransactionInput) (h : string)
    (st st' : State) (e : JsError) :
  storeNewTransaction input h st = (Throw e, st') ->
  transactions st' = transactions st /\ exists name msg, e = ErrorObject name msg.
Proof.
  unfold storeNewTransaction, mbind, lift, ret, Prisma.user_findUnique,
    Prisma.user_create, Prisma.transaction_create, NumberToBigInt.
  intros Hrun. cbn beta iota in Hrun.
  repeat (run_step Hrun; try discriminate Hrun);
    cbn [users transactions fresh] in *; run_inv Hrun; cbn [users transactions fresh];
    (split; [reflexivity|]);
    eauto using BigInt_throw, toLowerCase_throw, determineTransactionType_throw;
    unfold Prisma.ValidationError, Prisma.KnownRequestError; eauto.
Qed.

(** A stored hash makes [processTransaction] return the stored row and
    leave the store as it is. *)
Lemma processTransaction_existing (input : ProcessTransactionInput) (h : string)
    (t : Transaction) (st : State) :
  in_txHash input = JStr h ->
  Prisma.find_transaction h (transactions st) = Some t ->
  processTransaction input st = (Ok t, st).
Proof.
  intros Hh Hfind.
  unfold processTransaction, mtry_catch, mbind, lift, where_txHash,
    Prisma.transaction_findUnique, ret.
  rewrite Hh, Hfind. reflexivity.
Qed.

(** The three ways a run of [processTransaction] goes. *)
Lemma processTransaction_cases (input : ProcessTransactionInput)
    (st st' : State) (r : Result Transaction) :
  processTransaction input st = (r, st') ->
  (exists h t, in_txHash input = JStr h
     /\ Prisma.find_transaction h (transactions st) = Some t
     /\ r = Ok t /\ st' = st)
  \/ (exists h, in_txHash input = JStr h
     /\ Prisma.find_transaction h (transactions st) = None
     /\ storeNewTransaction input h st = (r, st'))
  \/ ((forall h, in_txHash input <> JStr h)
     /\ r = Throw (Prisma.ValidationError "Invalid `prisma.transaction.findUnique()` invocation")
     /\ st' = st).
Proof.
  unfold processTransaction, mtry_catch, mbind, lift, where_txHash,
    Prisma.transaction_findUnique, ret, throw.
  intros Hrun.
  destruct (in_txHash input) eqn:Hh;
    try (run_inv Hrun; right; right; repeat split; congruence).
  destruct (Prisma.find_transaction s (transactions st)) as [t|] eqn:Hfind.
  - run_inv Hrun. left. eauto 6.
  - right; left. exists s. repeat split; try assumption.
    destruct (storeNewTransaction input s st) as [[t|e] st1]; exact Hrun.
Qed.

(** The row [processTransaction] returns carries the hash of the input and
    is the one the store now holds for that hash. *)
Lemma processTransaction_ok (input : ProcessTransactionInput)
    (st st' : State) (t : Transaction) :
  processTransaction input st = (Ok t, st') ->
  in_txHash input = JStr (Store.txHash (data t))
  /\ Prisma.find_transaction (Store.txHash (data t)) (transactions st') = Some t.
Proof.
  intros Hrun. apply processTransaction_cases in Hrun.
  destruct Hrun as [(h & t' & Hh & Hfind & Hr & ->)|[(h & Hh & Hnone & Hnew)|(_ & Hr & _)]].
  - inversion Hr; subst t'. destruct (find_transaction_hash _ _ _ Hfind) as [<- _]. auto.
  - apply storeNewTransaction_ok in Hnew.
    destruct Hnew as (ty & g & p & a & b & toA & u & _ & _ & _ & _ & _ & _ & _ & _
                      & _ & Htx & _ & Hhash & _).
    rewrite Hhash, Htx. split; [assumption|].
    apply find_transaction_app; assumption.
  - discriminate Hr.
Qed.

(** A returned row that the store did not hold before was stored by this
    run. *)
Lemma processTransaction_new (input : ProcessTransactionInput)
    (st st' : State) (t : Transaction) :
  processTransaction input st = (Ok t, st') -> ~ In t (transactions st) ->
  storeNewTransaction input (Store.txHash (data t)) st = (Ok t, st').
Proof.
  intros Hrun Hnew. apply processTransaction_cases in Hrun.
  destruct Hrun as [(h & t' & Hh & Hfind & Hr & ->)|[(h & Hh & Hnone & Hrun)|(_ & Hr & _)]].
  - inversion Hr; subst t'. destruct (find_transaction_hash _ _ _ Hfind). contradiction.
  - pose proof (storeNewTransaction_ok _ _ _ _ _ Hrun) as Hok.
    destruct Hok as (ty & g & p & a & b & toA & u & _ & _ & _ & _ & _ & _ & _ & _
                     & _ & _ & _ & Hhash & _).
    rewrite Hhash. exact Hrun.
  - discriminate Hr.
Qed.

(** [processTransaction] keeps the hashes of the table distinct. *)
Lemma processTransaction_hash_unique (input : ProcessTransactionInput)
    (st st' : State) (r : Result Transaction) :
  hash_unique st -> processTransaction input st = (r, st') -> hash_unique st'.
Proof.
  unfold hash_unique. intros Huniq Hrun. apply processTransaction_cases in Hrun.
  destruct Hrun as [(h & t' & _ & _ & _ & ->)|[(h & Hh & Hnone & Hrun)|(_ & _ & ->)]];
    try assumption.
  destruct r as [t|e].
  - apply storeNewTransaction_ok in Hrun.
    destruct Hrun as (ty & g & p & a & b & toA & u & _ & _ & _ & _ & _ & _ & _ & _
                      & _ & Htx & _ & Hhash & _).
    rewrite Htx, map_app. cbn. rewrite Hhash.
    apply NoDup_app; [assumption|repeat constructor; intros []|].
    intros x Hx [<-|[]]. exact (find_transaction_none _ _ Hnone Hx).
  - apply storeNewTransaction_throw in Hrun. destruct Hrun as [-> _]. assumption.
Qed.

Lemma processTransaction_throw (input : ProcessTransactionInput)
    (st st' : State) (e : JsError) :
  processTransaction input st = (Throw e, st') ->
  transactions st' = transactions st /\ exists name msg, e = ErrorObject name msg.
Proof.
  intros Hrun. apply processTransaction_cases in Hrun.
  destruct Hrun as [(h & t' & _ & _ & Hr & _)|[(h & _ & _ & Hrun)|(_ & Hr & ->)]].
  - discriminate Hr.
  - eapply storeNewTransaction_throw, Hrun.
  - inversion Hr. split; [reflexivity|]. unfold Prisma.ValidationError. eauto.
Qed.

(** ** The parser *)

Lemma get_truthy (v : JsVal) (key : string) :
  truthy v = true -> get v key = Ok (get_opt v key).
Proof. destruct v; cbn; intros Ht; try discriminate; reflexivity. Qed.

(** On a truthy entry the reads cannot throw: only the network lookup
    decides whether a record comes out. *)
Lemma buildInput_eq (now : Z) (tx : JsVal) :
  truthy tx = true ->
  buildInput now tx =
    (network <- Indexer.getNetworkFromChainId (chain_read (get_opt tx "chainId")) ;;
     Ok {| in_txHash := get_opt tx "hash";
           in_blockNumber := parseInt (get_opt tx "blockNum") 16;
           in_timestamp := NewDate (or_else (get_opt tx "timestamp") (JNum (NInt now)));
           in_network := network;
           in_chainId := chain_read (get_opt tx "chainId");
           in_fromAddress := get_opt tx "fromAddress";
           in_toAddress := get_opt tx "toAddress";
           in_value := or_else (get_opt tx "value") (JStr "0");
           in_gasUsed := or_else (get_opt tx "gasUsed") (JStr "0");
           in_gasPrice := or_else (get_opt tx "gasPrice") (JStr "0");
           in_status := if is_string (get_opt tx "status") "0x1" then success else failed |})%result.
Proof.
  intros Ht. unfold buildInput, chain_read.
  rewrite !(get_truthy tx) by assumption. reflexivity.
Qed.

(** The parser never throws. *)
Lemma parseAlchemyWebhook_total (now : Z) (payload : JsVal) :
  exists r, parseAlchemyWebhook now payload = Ok r.
Proof.
  unfold parseAlchemyWebhook, try_catch, rbind.
  destruct (first_activity payload) as [entry|e]; [|eauto].
  destruct (truthy entry); cbn; [|eauto].
  destruct (buildInput now entry); eauto.
Qed.

Lemma parseAlchemyWebhook_some (now : Z) (payload : JsVal) (input : ProcessTransactionInput) :
  parseAlchemyWebhook now payload = Ok (Some input) <->
  exists tx, first_activity payload = Ok tx /\ truthy tx = true /\ buildInput now tx = Ok input.
Proof.
  unfold parseAlchemyWebhook, try_catch, rbind. split.
  - destruct (first_activity payload) as [entry|e]; [|discriminate].
    destruct (truthy entry) eqn:Ht; cbn; [|discriminate].
    destruct (buildInput now entry) eqn:Hb; [|discriminate].
    intros Heq. inversion Heq; subst. eauto.
  - intros (tx & -> & -> & ->). reflexivity.
Qed.

Lemma parseAlchemyWebhook_no_activity (now : Z) (payload : JsVal) :
  no_activity payload -> parseAlchemyWebhook now payload = Ok None.
Proof.
  unfold no_activity, parseAlchemyWebhook, try_catch, rbind.
  destruct (first_activity payload) as [entry|e]; [|reflexivity].
  intros ->. reflexivity.
Qed.

(** The clock only enters the timestamp: a payload that parses at one time
    parses at any other, to a record with the same hash. *)
Lemma parseAlchemyWebhook_clock (now now' : Z) (payload : JsVal)
    (input : ProcessTransactionInput) :
  parseAlchemyWebhook now payload = Ok (Some input) ->
  exists input', parseAlchemyWebhook now' payload = Ok (Some input')
                 /\ in_txHash input' = in_txHash input.
Proof.
  intros Hparse. apply parseAlchemyWebhook_some in Hparse.
  destruct Hparse as (tx & Hact & Ht & Hb).
  rewrite buildInput_eq in Hb by assumption. unfold rbind in Hb.
  destruct (Indexer.getNetworkFromChainId (chain_read (get_opt tx "chainId")))
    as [network|e] eqn:Hnet; [|discriminate].
  inversion Hb; subst input; clear Hb.
  eexists. split.
  - apply parseAlchemyWebhook_some. exists tx. repeat split; try assumption.
    rewrite buildInput_eq by assumption. unfold rbind. rewrite Hnet. reflexivity.
  - reflexivity.
Qed.

(** ** The signature verifier *)

Lemma timingSafeEqual_true (a b : string) : timingSafeEqual a b = Ok true <-> a = b.
Proof.
  unfold timingSafeEqual. split.
  - destruct (String.length a =? String.length b)%nat; [|discriminate].
    intros Heq. inversion Heq as [Heqb]. apply String.eqb_eq in Heqb. exact Heqb.
  - intros ->. rewrite Nat.eqb_refl, String.eqb_refl. reflexivity.
Qed.

Lemma verifyWebhookSignature_cases (env : Env) (body : string) (signature : option string) :
  exists b, verifyWebhookSignature env body signature = Ok b
    /\ (b = true <->
        absent (ALCHEMY_WEBHOOK_SECRET env) = true
        \/ (absent signature = false
            /\ hmac_sha256_hex (text_of (ALCHEMY_WEBHOOK_SECRET env)) body
               = Ok (text_of signature))).
Proof.
  unfold verifyWebhookSignature.
  destruct (absent (ALCHEMY_WEBHOOK_SECRET env)) eqn:Hkey.
  { exists true. split; [reflexivity|]. split; auto. }
  destruct (absent signature) eqn:Hsig.
  { exists false. split; [reflexivity|].
    split; [discriminate|]. intros [?|[? _]]; discriminate. }
  unfold try_catch, rbind.
  destruct (hmac_sha256_hex (text_of (ALCHEMY_WEBHOOK_SECRET env)) body) as [digest|e] eqn:Hmac.
  - destruct (timingSafeEqual (text_of signature) digest) as [[|]|e] eqn:Heq.
    + exists true. split; [reflexivity|]. split; [|reflexivity].
      intros _. right. split; [reflexivity|].
      apply timingSafeEqual_true in Heq. congruence.
    + exists false. split; [reflexivity|]. split; [discriminate|].
      intros [?|[_ Hd]]; [discriminate|].
      inversion Hd; subst digest.
      assert (Ht : timingSafeEqual (text_of signature) (text_of signature) = Ok true)
        by (apply timingSafeEqual_true; reflexivity).
      congruence.
    + exists false. split; [reflexivity|]. split; [discriminate|].
      intros [?|[_ Hd]]; [discriminate|].
      inversion Hd; subst digest.
      assert (Ht : timingSafeEqual (text_of signature) (text_of signature) = Ok true)
        by (apply timingSafeEqual_true; reflexivity).
      congruence.
  - exists false. split; [reflexivity|]. split; [discriminate|].
    intros [?|[_ Hd]]; discriminate.
Qed.

(** ** The endpoint *)


Lemma get_not_nullish (v : JsVal) (key : string) :
  nullish v = false -> get v key = Ok (get_opt v key).
Proof. destruct v; cbn; intros Hn; try discriminate; reflexivity. Qed.

(** A request that gets as far as the parser: the body is JSON, the
    signature check passes and the payload is not [null]. *)
Lemma POST_parsed (env : Env) (now : Z) (request : Request) (st : State) (payload : JsVal) :
  JSON_parse_outcome (body request) = inl payload ->
  verifyWebhookSignature env (body request) (x_alchemy_signature request) = Ok true ->
  nullish payload = false ->
  POST env now request st =
    match parseAlchemyWebhook now payload with
    | Ok None => (errorResponse "Invalid webhook payload" 400 None, st)
    | Ok (Some input) =>
        match processTransaction input st with
        | (Ok transaction, st') =>
            (successResponse {| processed := true;
                                ApiUtils.txHash := Store.txHash (data transaction);
                                transactionId := id transaction |} 200, st')
        | (Throw e, st') => (handleApiError e, st')
        end
    | Throw e => (handleApiError e, st)
    end.
Proof.
  intros Hjson Hver Hpayload.
  unfold POST, POST_try, mbind, lift, ret, JSON_parse.
  rewrite Hjson, Hver. cbn [negb].
  rewrite (get_not_nullish _ _ Hpayload).
  destruct (parseAlchemyWebhook now payload) as [[input|]|e]; try reflexivity.
  destruct (processTransaction input st) as [[t|e] st']; reflexivity.
Qed.

(** How the endpoint answers, case by case. *)
Lemma POST_cases (env : Env) (now : Z) (request : Request) (st : State) :
  (exists msg, JSON_parse_outcome (body request) = inr msg
     /\ POST env now request st = (errorResponse msg 500 None, st))
  \/ (exists payload, JSON_parse_outcome (body request) = inl payload
     /\ verifyWebhookSignature env (body request) (x_alchemy_signature request) = Ok false
     /\ POST env now request st = (errorResponse "Invalid signature" 401 None, st))
  \/ (exists payload e, JSON_parse_outcome (body request) = inl payload
     /\ verifyWebhookSignature env (body request) (x_alchemy_signature request) = Ok true
     /\ nullish payload = true
     /\ get payload "type" = Throw (TypeError e)
     /\ POST env now request st = (errorResponse e 500 None, st))
  \/ (exists payload, JSON_parse_outcome (body request) = inl payload
     /\ verifyWebhookSignature env (body request) (x_alchemy_signature request) = Ok true
     /\ nullish payload = false
     /\ parseAlchemyWebhook now payload = Ok None
     /\ POST env now request st = (errorResponse "Invalid webhook payload" 400 None, st))
  \/ (exists payload input t st', JSON_parse_outcome (body request) = inl payload
     /\ verifyWebhookSignature env (body request) (x_alchemy_signature request) = Ok true
     /\ nullish payload = false
     /\ parseAlchemyWebhook now payload = Ok (Some input)
     /\ processTransaction input st = (Ok t, st')
     /\ POST env now request st =
          (successResponse {| processed := true;
                              ApiUtils.txHash := Store.txHash (data t);
                              transactionId := id t |} 200, st'))
  \/ (exists payload input e st', JSON_parse_outcome (body request) = inl payload
     /\ verifyWebhookSignature env (body request) (x_alchemy_signature request) = Ok true
     /\ nullish payload = false
     /\ parseAlchemyWebhook now payload = Ok (Some input)
     /\ processTransaction input st = (Throw e, st')
     /\ POST env now request st = (handleApiError e, st')).
Proof.
  destruct (JSON_parse_outcome (body request)) as [payload|msg] eqn:Hjson.
  2:{ left. exists msg. split; [reflexivity|].
      unfold POST, POST_try, mbind, lift, JSON_parse. rewrite Hjson. reflexivity. }
  right.
  destruct (verifyWebhookSignature_cases env (body request) (x_alchemy_signature request))
    as ([|] & Hver & _).
  2:{ left. exists payload. repeat split; try assumption.
      unfold POST, POST_try, mbind, lift, ret, JSON_parse. rewrite Hjson, Hver. reflexivity. }
  right.
  destruct (nullish payload) eqn:Hpayload.
  { left.
    assert (Hget : exists e, get payload "type" = Throw (TypeError e))
      by (destruct payload; try discriminate; cbn; eauto).
    destruct Hget as (e & Hget). exists payload, e. repeat split; try assumption.
    unfold POST, POST_try, mbind, lift, ret, JSON_parse.
    rewrite Hjson, Hver. cbn [negb]. rewrite Hget. reflexivity. }
  right.
  pose proof (POST_parsed env now request st payload Hjson Hver Hpayload) as Hpost.
  destruct (parseAlchemyWebhook_total now payload) as ([input|] & Hparse);
    rewrite Hparse in Hpost.
  2:{ left. exists payload. repeat split; assumption. }
  right.
  destruct (processTransaction input st) as [[t|e] st'] eqn:Hrun.
  - left. exists payload, input, t, st'. repeat split; assumption.
  - right. exists payload, input, e, st'. repeat split; assumption.
Qed.

(** ** The properties of the pipeline *)

(** C1 - Ingestion is idempotent on the transaction hash.  In a store whose
    hashes are distinct, [processTransaction] called with the hash of a stored
    row returns that row and leaves the store exactly as it was (no second
    row, no field written); and when a delivery is answered with success,
    delivering the same request again, at any later time, gives the same
    response (the same [transactionId]), leaves the store as the first
    delivery left it, and the store holds exactly one row with that hash. *)
Theorem ingestion_idempotent (env : Env) (now1 now2 : Z) (request : Request)
    (input : ProcessTransactionInput) (t : Transaction) (st : State) :
  hash_unique st ->
  (In t (transactions st) -> in_txHash input = JStr (Store.txHash (data t)) ->
   processTransaction input st = (Ok t, st))
  /\ (forall d, json (fst (POST env now1 request st)) = SuccessBody d ->
      let st1 := snd (POST env now1 request st) in
      POST env now2 request st1 = (fst (POST env now1 request st), st1)
      /\ List.length (rows_with_hash (ApiUtils.txHash d) st1) = 1%nat
      /\ hash_unique st1).
Proof.
  intros Huniq. split.
  - intros Hin Hh. eapply processTransaction_existing; [exact Hh|].
    apply find_transaction_unique; assumption.
  - intros d Hd.
    destruct (POST_cases env now1 request st)
      as [(msg & _ & Hp)|[(p & _ & _ & Hp)|[(p & e & _ & _ & _ & _ & Hp)
         |[(p & _ & _ & _ & _ & Hp)|[(p & i & r & st' & Hjson & Hver & Hnull & Hparse & Hrun & Hp)
         |(p & i & e & st' & _ & _ & _ & _ & Hrun & Hp)]]]]];
      rewrite Hp in Hd |- *; cbn [fst snd json errorResponse successResponse] in *;
      try discriminate Hd.
    2:{ apply processTransaction_throw in Hrun. destruct Hrun as (_ & name & msg & ->).
        cbn in Hd. destruct (name =? "PrismaClientKnownRequestError")%string; discriminate. }
    inversion Hd; subst d; clear Hd. cbn [ApiUtils.txHash].
    destruct (processTransaction_ok _ _ _ _ Hrun) as [Hhash Hfind].
    destruct (parseAlchemyWebhook_clock now1 now2 p i Hparse) as (i2 & Hparse2 & Hh2).
    pose proof (processTransaction_hash_unique _ _ _ _ Huniq Hrun) as Huniq'.
    repeat split.
    + rewrite (POST_parsed env now2 request st' p Hjson Hver Hnull), Hparse2.
      rewrite (processTransaction_existing i2 (Store.txHash (data r)) r st');
        [reflexivity|congruence|assumption].
    + apply rows_with_hash_unique; [assumption|].
      destruct (find_transaction_hash _ _ _ Hfind) as [_ Hin].
      apply in_map_iff. eauto.
    + assumption.
Qed.

Lemma determineTransactionType_value (input : ProcessTransactionInput) (v : Z) :
  BigInt (in_value input) = Ok v ->
  determineTransactionType input = Ok (if v >? 0 then TRANSFER else CONVERSION).
Proof.
  intros Hv. unfold determineTransactionType, rbind. rewrite Hv.
  destruct (v >? 0); reflexivity.
Qed.

(** The status and the value the parser hands on are those of the entry. *)
Lemma parseAlchemyWebhook_fields (now : Z) (payload : JsVal) (input : ProcessTransactionInput) :
  parseAlchemyWebhook now payload = Ok (Some input) ->
  exists tx, first_activity payload = Ok tx /\ truthy tx = true
    /\ in_txHash input = get_opt tx "hash"
    /\ in_blockNumber input = parseInt (get_opt tx "blockNum") 16
    /\ in_chainId input = chain_read (get_opt tx "chainId")
    /\ Indexer.getNetworkFromChainId (chain_read (get_opt tx "chainId")) = Ok (in_network input)
    /\ in_value input = or_else (get_opt tx "value") (JStr "0")
    /\ in_gasUsed input = or_else (get_opt tx "gasUsed") (JStr "0")
    /\ in_gasPrice input = or_else (get_opt tx "gasPrice") (JStr "0")
    /\ in_status input = (if is_string (get_opt tx "status") "0x1" then success else failed).
Proof.
  intros Hparse. apply parseAlchemyWebhook_some in Hparse.
  destruct Hparse as (tx & Hact & Ht & Hb).
  rewrite buildInput_eq in Hb by assumption. unfold rbind in Hb.
  destruct (Indexer.getNetworkFromChainId (chain_read (get_opt tx "chainId")))
    as [network|e] eqn:Hnet; [|discriminate].
  inversion Hb; subst input; clear Hb. cbn.
  exists tx. repeat split; assumption.
Qed.




Lemma absent_key (env : Env) (key : string) :
  ALCHEMY_WEBHOOK_SECRET env = Some key -> key <> EmptyString ->
  absent (ALCHEMY_WEBHOOK_SECRET env) = false
  /\ text_of (ALCHEMY_WEBHOOK_SECRET env) = key.
Proof.
  intros -> Hkey. cbn. split; [|reflexivity].
  destruct (String.eqb_spec key EmptyString); [contradiction|reflexivity].
Qed.

(** With a secret configured, a bad signature fails the check. *)
Lemma verifyWebhookSignature_bad (env : Env) (key body : string) (signature : option string) :
  ALCHEMY_WEBHOOK_SECRET env = Some key -> key <> EmptyString ->
  bad_signature key body signature ->
  verifyWebhookSignature env body signature = Ok false.
Proof.
  intros Henv Hkey Hbad.
  destruct (absent_key env key Henv Hkey) as [Habs Htext].
  destruct (verifyWebhookSignature_cases env body signature) as ([|] & Hver & Hiff);
    [|assumption].
  exfalso. destruct Hiff as [Hiff _].
  destruct (Hiff eq_refl) as [Hno|[Hsig Hmac]]; [congruence|].
  rewrite Htext in Hmac. destruct Hbad as [Hmissing|Hdiff]; congruence.
Qed.

(** C4 - With a signing secret configured, a request whose
    signature header is missing, or is not the keyed hash of the raw body,
    writes nothing to the store whatever its body is; and when its body is
    JSON, it is answered 401 with the error Invalid signature. *)
Theorem bad_signature_rejected (env : Env) (now : Z) (request : Request) (st : State)
    (key : string) :
  ALCHEMY_WEBHOOK_SECRET env = Some key -> key <> EmptyString ->
  bad_signature key (body request) (x_alchemy_signature request) ->
  snd (POST env now request st) = st
  /\ forall payload, JSON_parse_outcome (body request) = inl payload ->
       fst (POST env now request st) = errorResponse "Invalid signature" 401 None.
Proof.
  intros Henv Hkey Hbad.
  pose proof (verifyWebhookSignature_bad env key _ _ Henv Hkey Hbad) as Hver.
  unfold POST, POST_try, mbind, lift, ret, JSON_parse.
  destruct (JSON_parse_outcome (body request)) as [payload|msg].
  - rewrite Hver. cbn. split; [reflexivity|]. intros p _. reflexivity.
  - cbn. split; [reflexivity|]. intros p Hp. discriminate Hp.
Qed.

(** C5 - A payload without a first activity entry.  The parser returns its
    no-data result without throwing, and nothing is written.  The endpoint
    answers 400 when the payload is not [null]; on the payload [null] the read
    of [payload.type] that precedes the parser throws, and the answer is
    500. *)
Theorem missing_activity_response (env : Env) (now : Z) (request : Request) (st : State)
    (payload : JsVal) :
  JSON_parse_outcome (body request) = inl payload ->
  verifyWebhookSignature env (body request) (x_alchemy_signature request) = Ok true ->
  no_activity payload ->
  parseAlchemyWebhook now payload = Ok None
  /\ snd (POST env now request st) = st
  /\ (nullish payload = false ->
      fst (POST env now request st) = errorResponse "Invalid webhook payload" 400 None)
  /\ (payload = JNull ->
      fst (POST env now request st)
      = errorResponse "Cannot read properties of null (reading 'type')" 500 None).
Proof.
  intros Hjson Hver Hno.
  pose proof (parseAlchemyWebhook_no_activity now payload Hno) as Hparse.
  split; [assumption|].
  destruct (nullish payload) eqn:Hnull.
  - unfold POST, POST_try, mbind, lift, ret, JSON_parse. rewrite Hjson, Hver.
    destruct payload; try discriminate Hnull; cbn;
      (split; [reflexivity|split; [discriminate|]]); intros Hp;
      try discriminate Hp; reflexivity.
  - rewrite (POST_parsed env now request st payload Hjson Hver Hnull), Hparse.
    cbn. split; [reflexivity|]. split; [reflexivity|].
    intros ->. discriminate Hnull.
Qed.

(** C7 - A body that is not JSON makes [JSON.parse] throw, and
    the endpoint answers 500 with the message of that error, the store
    untouched.  400 is the answer exactly when the body is JSON, the
    signature check passes, the payload is not [null] and the parser returns
    its no-data result.  500 is answered only when something was thrown:
    by [JSON.parse], by the read of [payload.type] on a [null] payload, or by
    [processTransaction]; a known request error of the store is then reported
    as Database error. *)
Theorem unparseable_body_response (env : Env) (now : Z) (request : Request) (st : State) :
  (forall msg, JSON_parse_outcome (body request) = inr msg ->
     POST env now request st = (errorResponse msg 500 None, st))
  /\ (status (fst (POST env now request st)) = 400 <->
      exists payload,
        JSON_parse_outcome (body request) = inl payload
        /\ verifyWebhookSignature env (body request) (x_alchemy_signature request) = Ok true
        /\ nullish payload = false
        /\ parseAlchemyWebhook now payload = Ok None)
  /\ (status (fst (POST env now request st)) = 500 ->
      (exists msg, JSON_parse_outcome (body request) = inr msg)
      \/ (exists payload,
            JSON_parse_outcome (body request) = inl payload
            /\ verifyWebhookSignature env (body request) (x_alchemy_signature request) = Ok true
            /\ (nullish payload = true
                \/ exists input name msg st',
                     parseAlchemyWebhook now payload = Ok (Some input)
                     /\ processTransaction input st = (Throw (ErrorObject name msg), st')
                     /\ (name = "PrismaClientKnownRequestError" ->
                         json (fst (POST env now request st)) = ErrorBody "Database error" None))))
  /\ forall input name msg st',
       processTransaction input st = (Throw (ErrorObject name msg), st') ->
       name <> "PrismaClientKnownRequestError" ->
       handleApiError (ErrorObject name msg) = errorResponse msg 500 None.
Proof.
  split; [|split; [|split]].
  - intros msg Hjson.
    unfold POST, POST_try, mbind, lift, JSON_parse. rewrite Hjson. reflexivity.
  - destruct (POST_cases env now request st)
      as [(msg & Hjson & Hp)|[(p & Hjson & Hver & Hp)|[(p & e & Hjson & Hver & Hnull & _ & Hp)
         |[(p & Hjson & Hver & Hnull & Hparse & Hp)
         |[(p & i & r & st' & Hjson & Hver & Hnull & Hparse & Hrun & Hp)
         |(p & i & e & st' & Hjson & Hver & Hnull & Hparse & Hrun & Hp)]]]]];
      rewrite Hp; cbn [fst status errorResponse successResponse]; split;
      try discriminate;
      try (intros (p' & Hjson' & Hver' & Hnull' & Hparse'); congruence).
    + intros _. exists p. repeat split; assumption.
    + apply processTransaction_throw in Hrun. destruct Hrun as (_ & name & msg & ->).
      cbn. destruct (name =? "PrismaClientKnownRequestError")%string; discriminate.
  - destruct (POST_cases env now request st)
      as [(msg & Hjson & Hp)|[(p & Hjson & Hver & Hp)|[(p & e & Hjson & Hver & Hnull & _ & Hp)
         |[(p & Hjson & Hver & Hnull & Hparse & Hp)
         |[(p & i & r & st' & Hjson & Hver & Hnull & Hparse & Hrun & Hp)
         |(p & i & e & st' & Hjson & Hver & Hnull & Hparse & Hrun & Hp)]]]]];
      rewrite Hp; cbn [fst status errorResponse successResponse]; try discriminate; intros _.
    + left. eauto.
    + right. exists p. auto.
    + right. exists p. split; [assumption|]. split; [assumption|]. right.
      destruct (processTransaction_throw _ _ _ _ Hrun) as (_ & name & msg & ->).
      exists i, name, msg, st'. repeat split; try assumption.
      intros ->. reflexivity.
  - intros input name msg st' _ Hname. cbn.
    destruct (String.eqb_spec name "PrismaClientKnownRequestError"); [contradiction|reflexivity].
Qed.

(** C8 - The signature verifier is total.  Whatever the configuration, the
    body and the signature header are, it returns a boolean: nothing thrown
    inside it escapes.  It returns true exactly when no secret is configured,
    or when the header is present and is the keyed hash of the body; so a
    missing or empty header, a header of another length than the hash, and
    an error while hashing or comparing all give false. *)
Theorem verifyWebhookSignature_total (env : Env) (body : string) (signature : option string) :
  exists b,
    verifyWebhookSignature env body signature = Ok b
    /\ (b = true <->
        absent (ALCHEMY_WEBHOOK_SECRET env) = true
        \/ (absent signature = false
            /\ hmac_sha256_hex (text_of (ALCHEMY_WEBHOOK_SECRET env)) body
               = Ok (text_of signature)))
    /\ (absent (ALCHEMY_WEBHOOK_SECRET env) = false ->
        (absent signature = true
         \/ (exists e,
               (digest <- hmac_sha256_hex (text_of (ALCHEMY_WEBHOOK_SECRET env)) body ;;
                timingSafeEqual (text_of signature) digest)%result = Throw e)) ->
        b = false).
Proof.
  destruct (verifyWebhookSignature_cases env body signature) as (b & Hver & Hiff).
  exists b. split; [assumption|]. split; [assumption|].
  intros Hkey Hfail. destruct b; [|reflexivity]. exfalso.
  destruct Hiff as [Hiff _].
  destruct (Hiff eq_refl) as [Hno|[Hsig Hmac]]; [congruence|].
  destruct Hfail as [Hmissing|(e & Hthrow)]; [congruence|].
  unfold rbind in Hthrow. rewrite Hmac in Hthrow.
  assert (Ht : timingSafeEqual (text_of signature) (text_of signature) = Ok true)
    by (apply timingSafeEqual_true; reflexivity).
  congruence.
Qed.


Lemma toLowerCase_string (v : JsVal) (a : string) :
  toLowerCase v = Ok a -> exists s, v = JStr s /\ a = lowercase s.
Proof. destruct v; cbn; intros Hv; inversion Hv; eauto. Qed.

(** C9 - Users are keyed by the lowercased sender address.  A run of
    [processTransaction] leaves every stored user as it is (its role
    included) and adds at most one user, whose address is the lowercased
    sender address and whose role is USER.  When a new transaction is stored
    from a sender whose lowercased address is not in the table, that user is
    created and the transaction refers to it; when the lowercased address is
    in the table, whatever the casing of the sender address, the user table is
    unchanged and the transaction refers to the existing user. *)
Theorem user_keyed_by_lowercased_address (input : ProcessTransactionInput)
    (st st' : State) (r : Result Transaction) :
  processTransaction input st = (r, st') ->
  (users st' = users st
   \/ exists s, in_fromAddress input = JStr s
        /\ Prisma.find_user (lowercase s) (users st) = None
        /\ users st' = users st ++ [{| user_id := fresh st;
                                       walletAddress := lowercase s;
                                       role := USER |}])
  /\ forall t, r = Ok t -> ~ In t (transactions st) ->
       exists s, in_fromAddress input = JStr s
         /\ fromAddress (data t) = lowercase s
         /\ (Prisma.find_user (lowercase s) (users st) = None ->
             users st' = users st ++ [{| user_id := fresh st;
                                         walletAddress := lowercase s;
                                         role := USER |}]
             /\ userId (data t) = fresh st)
         /\ (forall u, Prisma.find_user (lowercase s) (users st) = Some u ->
             users st' = users st /\ userId (data t) = user_id u).
Proof.
  intros Hrun. split.
  - apply processTransaction_cases in Hrun.
    destruct Hrun as [(h & t' & _ & _ & _ & ->)|[(h & _ & _ & Hrun)|(_ & _ & ->)]];
      try (left; reflexivity).
    apply storeNewTransaction_users in Hrun.
    destruct Hrun as [Hsame|(a & Ha & Hnone & Husers)]; [left; assumption|].
    right. apply toLowerCase_string in Ha. destruct Ha as (s & Hs & ->). eauto.
  - intros t -> Hnew.
    apply processTransaction_new in Hrun; [|assumption].
    apply storeNewTransaction_ok in Hrun.
    destruct Hrun as (ty & g & p & a & b & toA & u & _ & _ & _ & Ha & _ & _ & Hfound & Huser
                      & _ & _ & _ & _ & Huid & _ & _ & _ & _ & Hfrom & _).
    apply toLowerCase_string in Ha. destruct Ha as (s & Hs & ->).
    exists s. split; [assumption|]. split; [assumption|].
    destruct Huser as [[Hold Husers]|(Hnone & Hu & Husers)]; split.
    + intros Hnone. congruence.
    + intros u' Hu'. split; [assumption|]. congruence.
    + intros _. subst u. split; [assumption|]. exact Huid.
    + intros u' Hu'. congruence.
Qed.

(** ** Chain ids *)

Lemma getNetworkFromChainId_configured (c : JsNumber) :
  (exists network, Indexer.getNetworkFromChainId c = Ok network) <-> configured c.
Proof.
  unfold Indexer.getNetworkFromChainId, configured. split.
  - intros (network & Hnet).
    destruct c as [|neg|z]; try discriminate Hnet.
    exists z. split; [reflexivity|].
    unfold Indexer.NETWORK_CONFIG in Hnet.
    cbn [Indexer.find_network Indexer.same_chain Indexer.chainId] in Hnet. cbn.
    repeat match type of Hnet with
           | context [?k =? z] => destruct (Z.eqb_spec k z); [subst; tauto|]
           end.
    discriminate Hnet.
  - intros (z & -> & Hin). cbn in Hin.
    repeat (destruct Hin as [<-|Hin]; [eexists; reflexivity|]).
    contradiction.
Qed.








End Pipeline.

(** ** The properties at concrete requests *)

Module Concrete.

Import Processor ApiUtils Webhook Demo.

(** *** The runtime fragment on a few inputs *)

Example parseInt_hex : Js.parseInt (Js.JStr "0x10d4f") 16 = Js.NInt 68943.
Proof. reflexivity. Qed.

Example parseInt_prefix : Js.parseInt (Js.JStr " 8453.9") 0 = Js.NInt 8453.
Proof. reflexivity. Qed.

Example parseInt_NaN : Js.parseInt Js.JUndefined 16 = Js.NaN.
Proof. reflexivity. Qed.

Example BigInt_wei : Js.BigInt (Js.JStr "1000000000000000000") = Ok (10 ^ 18).
Proof. reflexivity. Qed.

Example BigInt_syntax : Js.BigInt (Js.JStr "1.5") = Throw (SyntaxError "Cannot convert 1.5 to a BigInt").
Proof. reflexivity. Qed.

Example toString_product : Js.Z_toString (21000 * 30000000000) = "630000000000000".
Proof. reflexivity. Qed.

Example round_double_tie : Js.round_double (2 ^ 53 + 1) = Js.NInt (2 ^ 53).
Proof. vm_compute. reflexivity. Qed.

Example round_double_up : Js.round_double (2 ^ 53 + 3) = Js.NInt (2 ^ 53 + 4).
Proof. vm_compute. reflexivity. Qed.

Example parseInt_exponent : Js.parseInt (Js.JNum (Js.NInt (10 ^ 21))) 0 = Js.NInt 1.
Proof. vm_compute. reflexivity. Qed.

Example lowercase_address : Js.lowercase alice = "0xabcd000000000000000000000000000000001234".
Proof. reflexivity. Qed.

(** *** The pipeline on the example requests *)

(** The transfer is delivered three times: the second and third deliveries
    give the response of the first and add nothing. *)
Lemma ingestion_idempotent_witness :
  exists input t,
    parseAlchemyWebhook 1000 (envelope transfer_entry) = Ok (Some input)
    /\ processTransaction input after_transfer = (Ok t, after_transfer)
    /\ (let request := request_of (envelope transfer_entry) None in
        let second := POST no_secret 2000 request after_transfer in
        POST no_secret 3000 request (snd second) = (fst second, snd second)
        /\ List.length (rows_with_hash "0xaaa1" (snd second)) = 1%nat).
Proof.
  eexists. eexists. split; [vm_compute; reflexivity|].
  assert (Huniq : hash_unique after_transfer).
  { vm_compute. repeat constructor. intros []. }
  match goal with
  | |- processTransaction ?i _ = (Ok ?t, _) /\ _ =>
      destruct (ingestion_idempotent (P := platform) no_secret 2000 3000
                  (request_of (envelope transfer_entry) None) i t after_transfer Huniq)
        as [Hstored Hagain]
  end.
  split.
  - apply Hstored; [vm_compute; left; reflexivity|reflexivity].
  - cbv zeta.
    destruct (Hagain {| processed := true; ApiUtils.txHash := "0xaaa1"; transactionId := 1%nat |}
                ltac:(vm_compute; reflexivity)) as (Hsame & Hone & _).
    split; [exact Hsame|exact Hone].
Defined.



(** With a secret configured, a JSON body without signature is answered
    401. *)
Lemma bad_signature_rejected_witness :
  POST with_secret 1000 (request_of (JObj []) None) Store.empty
  = (errorResponse "Invalid signature" 401 None, Store.empty).
Proof.
  destruct (bad_signature_rejected (P := platform) with_secret 1000 (request_of (JObj []) None) Store.empty
              "whsec_test" eq_refl ltac:(discriminate) (or_introl eq_refl))
    as [Hstore Hanswer].
  rewrite (surjective_pairing (POST _ _ _ _)).
  rewrite Hstore, (Hanswer (JObj []) ltac:(vm_compute; reflexivity)). reflexivity.
Defined.

(** With a secret configured and no signature header, a body that is not
    JSON is answered 500, not 401. *)
Lemma unsigned_garbage_answered_500 :
  ALCHEMY_WEBHOOK_SECRET with_secret = Some "whsec_test"
  /\ x_alchemy_signature garbage_request = None
  /\ POST with_secret 1000 garbage_request Store.empty
     = (errorResponse "Unexpected token in JSON at position 0" 500 None, Store.empty)
  /\ status (fst (POST with_secret 1000 garbage_request Store.empty)) <> 401.
Proof. repeat split. vm_compute. discriminate. Qed.

(** The payload [null] has no activity entry and is answered 500; the
    payload [{}] has none either and is answered 400. *)
Lemma missing_activity_response_witness :
  POST no_secret 1000 (request_of JNull None) Store.empty
  = (errorResponse "Cannot read properties of null (reading 'type')" 500 None, Store.empty)
  /\ POST no_secret 1000 (request_of (JObj []) None) Store.empty
     = (errorResponse "Invalid webhook payload" 400 None, Store.empty).
Proof.
  split.
  - destruct (missing_activity_response (P := platform) no_secret 1000 (request_of JNull None) Store.empty
                JNull ltac:(vm_compute; reflexivity) ltac:(vm_compute; reflexivity) I) as (_ & Hstore & _ & Hnull).
    rewrite (surjective_pairing (POST _ _ _ _)).
    rewrite Hstore, (Hnull eq_refl). reflexivity.
  - destruct (missing_activity_response (P := platform) no_secret 1000 (request_of (JObj []) None) Store.empty
                (JObj []) ltac:(vm_compute; reflexivity) ltac:(vm_compute; reflexivity) ltac:(vm_compute; reflexivity)) as (_ & Hstore & Hobject & _).
    rewrite (surjective_pairing (POST _ _ _ _)).
    rewrite Hstore, (Hobject eq_refl). reflexivity.
Defined.



(** A body that is not JSON is answered 500 with the parser's message. *)
Lemma unparseable_body_response_witness :
  POST no_secret 1000 garbage_request Store.empty
  = (errorResponse "Unexpected token in JSON at position 0" 500 None, Store.empty).
Proof.
  destruct (unparseable_body_response (P := platform) no_secret 1000 garbage_request Store.empty)
    as (Hsyntax & _).
  apply Hsyntax. vm_compute. reflexivity.
Defined.

(** A body that is not JSON is not answered 400. *)
Lemma garbage_not_answered_400 :
  JSON_parse (body garbage_request)
  = Throw (SyntaxError "Unexpected token in JSON at position 0")
  /\ status (fst (POST no_secret 1000 garbage_request Store.empty)) = 500
  /\ status (fst (POST no_secret 1000 garbage_request Store.empty)) <> 400.
Proof. repeat split. vm_compute. discriminate. Qed.

(** A signature of the wrong length makes the comparison throw; the verifier
    returns false. *)
Lemma verifyWebhookSignature_total_witness :
  timingSafeEqual "short" "2ac6a8f3c7b6b5c1" = Throw (RangeError "Input buffers must have the same byte length")
  /\ verifyWebhookSignature with_secret "{}" (Some "short") = Ok false.
Proof.
  split; [reflexivity|].
  destruct (verifyWebhookSignature_total (P := platform) with_secret "{}" (Some "short"))
    as (b & Hver & _ & Hfail).
  rewrite Hver. f_equal. apply Hfail; [reflexivity|].
  right. eexists. vm_compute. reflexivity.
Defined.

(** A second sender address that differs from a stored one by its casing is
    served by the stored user. *)
Lemma user_keyed_by_lowercased_address_witness :
  users after_transfer
  = [{| user_id := 0; walletAddress := "0xabcd000000000000000000000000000000001234"; role := USER |}]
  /\ exists input t st',
       parseAlchemyWebhook 2000 (envelope capitals_entry) = Ok (Some input)
       /\ in_fromAddress input = JStr "0XABCD000000000000000000000000000000001234"
       /\ processTransaction input after_transfer = (Ok t, st')
       /\ users st' = users after_transfer
       /\ userId (data t) = 0%nat.
Proof.
  split; [reflexivity|].
  eexists. eexists. eexists.
  split; [vm_compute; reflexivity|]. split; [reflexivity|].
  match goal with
  | |- processTransaction ?i ?st = (Ok ?t, ?st') /\ _ =>
      assert (Hrun : processTransaction i st = (Ok t, st')) by (vm_compute; reflexivity);
      destruct (user_keyed_by_lowercased_address (P := platform) i st st' (Ok t) Hrun) as [_ Hnew];
      destruct (Hnew t eq_refl) as (s & Hs & _ & _ & Hreuse)
  end.
  { vm_compute. intros [H|[]]. discriminate H. }
  split; [exact Hrun|].
  inversion Hs; subst s.
  apply (Hreuse {| user_id := 0; walletAddress := "0xabcd000000000000000000000000000000001234";
                   role := USER |}).
  reflexivity.
Defined.



End Concrete.

(** * Further properties of the pipeline and of its neighbours *)

(** ** Lower case *)

Lemma lower_ascii_idempotent (c : ascii) : lower_ascii (lower_ascii c) = lower_ascii c.
Proof. destruct c as [[] [] [] [] [] [] [] []]; reflexivity. Qed.

Lemma lowercase_idempotent (s : string) : lowercase (lowercase s) = lowercase s.
Proof.
  induction s as [|c s IH]; [reflexivity|].
  cbn. rewrite lower_ascii_idempotent, IH. reflexivity.
Qed.

(** ** Lists that grow at the end *)

Lemma NoDup_snoc {A : Type} (l : list A) (x : A) :
  NoDup l -> ~ In x l -> NoDup (l ++ [x]).
Proof.
  intros Hl Hx. apply NoDup_app; [assumption|repeat constructor; intros []|].
  intros y Hy [<-|[]]. exact (Hx Hy).
Qed.

Lemma find_user_none (a : string) (rows : list User) :
  Prisma.find_user a rows = None -> ~ In a (map walletAddress rows).
Proof.
  unfold Prisma.find_user. intros Hnone Hin.
  apply in_map_iff in Hin. destruct Hin as (u & Hu & Hin).
  apply (find_none _ _ Hnone) in Hin. cbn in Hin.
  rewrite Hu, String.eqb_refl in Hin. discriminate.
Qed.

Lemma find_user_some (a : string) (rows : list User) (u : User) :
  Prisma.find_user a rows = Some u -> In u rows /\ walletAddress u = a.
Proof.
  unfold Prisma.find_user. intros Hf. apply find_some in Hf.
  destruct Hf as [Hin Heq]. apply String.eqb_eq in Heq. auto.
Qed.

Section Effects.

Context `{P : Platform}.

Import Processor ApiUtils Webhook.

(** What a run of [storeNewTransaction] leaves behind: first the sender is
    resolved, which may add one user; then either something throws, or one
    row is added under a fresh identifier. *)
Lemma storeNewTransaction_shape (input : ProcessTransactionInput) (h : string)
    (st st' : State) (r : Result Transaction) :
  storeNewTransaction input h st = (r, st') ->
  exists st1,
    (st1 = st
     \/ exists a, toLowerCase (in_fromAddress input) = Ok a
          /\ Prisma.find_user a (users st) = None
          /\ st1 = with_user {| user_id := fresh st; walletAddress := a; role := USER |} st)
    /\ ((exists e, r = Throw e) /\ st' = st1
        \/ exists t, r = Ok t /\ id t = fresh st1 /\ st' = with_transaction t st1).
Proof.
  unfold storeNewTransaction, mbind, lift, ret, Prisma.user_findUnique,
    Prisma.user_create, Prisma.transaction_create.
  intros Hrun. cbn beta iota in Hrun.
  repeat (run_step Hrun;
          try (injection Hrun as Hr Hs; subst r st'; exists st; split; [left; reflexivity|];
               left; split; [eauto|reflexivity]; fail)).
  all: cbn [users transactions fresh] in *; injection Hrun as Hr Hs; subst r st'.
  all: lazymatch goal with
       | Hnone : Prisma.find_user ?a (users _) = None |- _ =>
           exists (with_user {| user_id := fresh st; walletAddress := a; role := USER |} st);
           split; [right; exists a; repeat split; assumption|]
       | _ => exists st; split; [left; reflexivity|]
       end.
  all: first [ left; split; [eauto|reflexivity]
             | right; eexists; repeat split; reflexivity ].
Qed.

(** The same for [processTransaction], with what the new row carries. *)
Lemma processTransaction_effect (input : ProcessTransactionInput)
    (st st' : State) (r : Result Transaction) :
  processTransaction input st = (r, st') ->
  (st' = st /\ ((exists e, r = Throw e) \/ exists t, r = Ok t /\ In t (transactions st)))
  \/ exists st1,
       (st1 = st
        \/ exists s, in_fromAddress input = JStr s
             /\ Prisma.find_user (lowercase s) (users st) = None
             /\ st1 = with_user {| user_id := fresh st;
                                   walletAddress := lowercase s;
                                   role := USER |} st)
       /\ ((exists e, r = Throw e) /\ st' = st1
           \/ exists t s s2 u,
                r = Ok t /\ id t = fresh st1 /\ st' = with_transaction t st1
                /\ Prisma.find_transaction (Store.txHash (data t)) (transactions st) = None
                /\ in_fromAddress input = JStr s /\ in_toAddress input = JStr s2
                /\ fromAddress (data t) = lowercase s /\ toAddress (data t) = lowercase s2
                /\ Prisma.find_user (lowercase s) (users st1) = Some u
                /\ userId (data t) = user_id u).
Proof.
  intros Hrun. apply processTransaction_cases in Hrun.
  destruct Hrun as [(h & t & _ & Hfind & -> & ->)|[(h & _ & Hnone & Hrun)|(_ & -> & ->)]].
  - left. split; [reflexivity|]. right. exists t. split; [reflexivity|].
    eapply find_transaction_hash, Hfind.
  - right. pose proof (storeNewTransaction_shape _ _ _ _ _ Hrun) as (st1 & Huser & Hrow).
    exists st1. split.
    + destruct Huser as [->|(a & Ha & Hun & ->)]; [left; reflexivity|].
      right. apply toLowerCase_string in Ha. destruct Ha as (s & Hs & ->). eauto.
    + destruct Hrow as [[He ->]|(t & -> & Hid & ->)]; [left; auto|]. right.
      apply storeNewTransaction_ok in Hrun.
      destruct Hrun as (ty & g & p & a & b & toA & u & _ & _ & _ & Ha & _ & HtoA & Hfound
                        & _ & _ & _ & _ & Hhash & Huid & _ & _ & _ & _ & Hfrom & Hto & _).
      apply toLowerCase_string in Ha. destruct Ha as (s & Hs & ->).
      apply toLowerCase_string in HtoA. destruct HtoA as (s2 & Hs2 & ->).
      exists t, s, s2, u. rewrite Hhash. cbn [users with_transaction] in Hfound.
      repeat split; assumption.
  - left. split; [reflexivity|]. left. eauto.
Qed.

(** Whatever [processTransaction] keeps, the endpoint keeps. *)
Lemma POST_keeps (Inv : State -> Prop) :
  (forall input st r st', Inv st -> processTransaction input st = (r, st') -> Inv st') ->
  forall env now request st, Inv st -> Inv (snd (POST env now request st)).
Proof.
  intros Hkeep env now request st Hst.
  destruct (POST_cases env now request st)
    as [(msg & _ & Hp)|[(p & _ & _ & Hp)|[(p & e & _ & _ & _ & _ & Hp)
       |[(p & _ & _ & _ & _ & Hp)|[(p & i & r & st' & _ & _ & _ & _ & Hrun & Hp)
       |(p & i & e & st' & _ & _ & _ & _ & Hrun & Hp)]]]]];
    rewrite Hp; cbn [snd]; try assumption; eapply Hkeep; eassumption.
Qed.

Lemma identifiers_sound_with_user (st : State) (a : string) :
  identifiers_sound st -> Prisma.find_user a (users st) = None ->
  identifiers_sound (with_user {| user_id := fresh st; walletAddress := a; role := USER |} st).
Proof.
  intros (Hu & Ht & Huid & Htid & Hwallet & Hhash) Hnone.
  unfold identifiers_sound, hash_unique, with_user. cbn [users transactions fresh].
  repeat split.
  - intros u Hin. apply in_app_or in Hin. destruct Hin as [Hin|[<-|[]]].
    + specialize (Hu u Hin). lia.
    + cbn. lia.
  - intros t Hin. specialize (Ht t Hin). lia.
  - rewrite map_app. apply NoDup_snoc; [assumption|]. cbn.
    intros Hin. apply in_map_iff in Hin. destruct Hin as (u & Heq & Hin).
    specialize (Hu u Hin). lia.
  - assumption.
  - rewrite map_app. apply NoDup_snoc; [assumption|]. cbn.
    apply find_user_none, Hnone.
  - assumption.
Qed.

Lemma identifiers_sound_with_transaction (st : State) (t : Transaction) :
  identifiers_sound st -> id t = fresh st ->
  Prisma.find_transaction (Store.txHash (data t)) (transactions st) = None ->
  identifiers_sound (with_transaction t st).
Proof.
  intros (Hu & Ht & Huid & Htid & Hwallet & Hhash) Hid Hnone.
  unfold identifiers_sound, hash_unique, with_transaction. cbn [users transactions fresh].
  repeat split.
  - intros u Hin. specialize (Hu u Hin). lia.
  - intros t' Hin. apply in_app_or in Hin. destruct Hin as [Hin|[<-|[]]].
    + specialize (Ht t' Hin). lia.
    + lia.
  - assumption.
  - rewrite map_app. apply NoDup_snoc; [assumption|]. cbn.
    intros Hin. apply in_map_iff in Hin. destruct Hin as (t' & Heq & Hin).
    specialize (Ht t' Hin). lia.
  - assumption.
  - rewrite map_app. apply NoDup_snoc; [assumption|]. cbn.
    apply find_transaction_none, Hnone.
Qed.

(** X1 - Identifiers and keys stay sound.  If, before a webhook request,
    every identifier in use is below the next fresh one and the user
    identifiers, the transaction identifiers, the wallet addresses and the
    transaction hashes are pairwise distinct, then the same holds after the
    request, however it is answered. *)
Theorem POST_keeps_identifiers_sound (env : Env) (now : Z) (request : Request) (st : State) :
  identifiers_sound st -> identifiers_sound (snd (POST env now request st)).
Proof.
  apply (POST_keeps identifiers_sound). clear.
  intros input st r st' Hst Hrun.
  apply processTransaction_effect in Hrun.
  destruct Hrun as [[-> _]|(st1 & Huser & Hrow)]; [assumption|].
  assert (Hst1 : identifiers_sound st1 /\ transactions st1 = transactions st).
  { destruct Huser as [->|(s & _ & Hnone & ->)]; [auto|].
    split; [apply identifiers_sound_with_user; assumption|reflexivity]. }
  destruct Hst1 as [Hst1 Hsame].
  destruct Hrow as [[_ ->]|(t & s & s2 & u & _ & Hid & -> & Hnone & _)]; [assumption|].
  apply identifiers_sound_with_transaction; [assumption|assumption|].
  rewrite Hsame. exact Hnone.
Qed.

(** X2 - Every transaction keeps a known owner.  If every stored
    transaction refers to a stored user whose wallet address is the sender
    address of the transaction, the same holds after a webhook request: a row
    the request adds refers to the user found or created for its lowercased
    sender address. *)
Theorem POST_keeps_owner_known (env : Env) (now : Z) (request : Request) (st : State) :
  owner_known st -> owner_known (snd (POST env now request st)).
Proof.
  apply (POST_keeps owner_known). clear.
  intros input st r st' Hst Hrun.
  apply processTransaction_effect in Hrun.
  destruct Hrun as [[-> _]|(st1 & Huser & Hrow)]; [assumption|].
  assert (Hst1 : owner_known st1).
  { destruct Huser as [->|(s & _ & _ & ->)]; [assumption|].
    intros t Hin. destruct (Hst t Hin) as (u & Hu & Hid & Hw).
    exists u. cbn. split; [apply in_or_app; left; assumption|auto]. }
  destruct Hrow as [[_ ->]|(t & s & s2 & u & _ & _ & -> & _ & _ & _ & Hfrom & _ & Hfound & Huid)];
    [assumption|].
  intros t' Hin. cbn in Hin. apply in_app_or in Hin.
  destruct Hin as [Hin|[<-|[]]].
  - destruct (Hst1 t' Hin) as (u' & Hu' & Hid' & Hw'). exists u'. cbn. auto.
  - apply find_user_some in Hfound. destruct Hfound as [Hin Hw].
    exists u. cbn. rewrite Hfrom. auto.
Qed.

(** X3 - Stored addresses are in lower case.  If the wallet address of
    every stored user and the sender and recipient addresses of every stored
    transaction are in lower case, the same holds after a webhook request,
    whatever the casing of the addresses in the payload. *)
Theorem POST_keeps_addresses_lowercase (env : Env) (now : Z) (request : Request) (st : State) :
  addresses_lowercase st -> addresses_lowercase (snd (POST env now request st)).
Proof.
  apply (POST_keeps addresses_lowercase). clear.
  intros input st r st' Hst Hrun.
  apply processTransaction_effect in Hrun.
  destruct Hrun as [[-> _]|(st1 & Huser & Hrow)]; [assumption|].
  assert (Hst1 : addresses_lowercase st1).
  { destruct Huser as [->|(s & _ & _ & ->)]; [assumption|].
    destruct Hst as [Hu Ht]. split; [|exact Ht].
    intros u Hin. cbn in Hin. apply in_app_or in Hin.
    destruct Hin as [Hin|[<-|[]]]; [auto|]. cbn. apply lowercase_idempotent. }
  destruct Hrow as [[_ ->]|(t & s & s2 & u & _ & _ & -> & _ & _ & _ & Hfrom & Hto & _)];
    [assumption|].
  destruct Hst1 as [Hu Ht]. split; [exact Hu|].
  intros t' Hin. cbn in Hin. apply in_app_or in Hin.
  destruct Hin as [Hin|[<-|[]]]; [auto|].
  rewrite Hfrom, Hto. split; apply lowercase_idempotent.
Qed.

(** X4 - The endpoint only appends.  A webhook request leaves every stored
    user and every stored transaction in place and unchanged; it adds at most
    one user and at most one transaction, and it adds a transaction only when
    it answers 200, with the identifier and the hash of the added row in the
    response. *)
Theorem POST_appends_only (env : Env) (now : Z) (request : Request) (st : State) :
  exists new_users new_rows,
    users (snd (POST env now request st)) = users st ++ new_users
    /\ transactions (snd (POST env now request st)) = transactions st ++ new_rows
    /\ (List.length new_users <= 1)%nat
    /\ (new_rows = []
        \/ exists t, new_rows = [t]
             /\ fst (POST env now request st)
                = successResponse {| processed := true;
                                     ApiUtils.txHash := Store.txHash (data t);
                                     transactionId := id t |} 200).
Proof.
  assert (Hsame : forall resp, exists new_users new_rows : list _,
             users st = users st ++ new_users
             /\ transactions st = transactions st ++ new_rows
             /\ (List.length new_users <= 1)%nat
             /\ (new_rows = []
                 \/ exists t, new_rows = [t]
                      /\ resp = successResponse {| processed := true;
                                                   ApiUtils.txHash := Store.txHash (data t);
                                                   transactionId := id t |} 200)).
  { intros resp. exists [], []. rewrite !app_nil_r. cbn. auto. }
  assert (Hrun : forall input r st' resp,
             processTransaction input st = (r, st') ->
             (forall t, r = Ok t ->
                resp = successResponse {| processed := true;
                                          ApiUtils.txHash := Store.txHash (data t);
                                          transactionId := id t |} 200) ->
             exists new_users new_rows,
               users st' = users st ++ new_users
               /\ transactions st' = transactions st ++ new_rows
               /\ (List.length new_users <= 1)%nat
               /\ (new_rows = []
                   \/ exists t, new_rows = [t]
                        /\ resp = successResponse {| processed := true;
                                                     ApiUtils.txHash := Store.txHash (data t);
                                                     transactionId := id t |} 200)).
  { intros input r st' resp Hrun Hresp.
    apply processTransaction_effect in Hrun.
    destruct Hrun as [[-> _]|(st1 & Huser & Hrow)]; [apply Hsame|].
    assert (Hst1 : exists new_users, users st1 = users st ++ new_users
                     /\ transactions st1 = transactions st
                     /\ (List.length new_users <= 1)%nat).
    { destruct Huser as [->|(s & _ & _ & ->)].
      - exists []. rewrite app_nil_r. cbn. auto.
      - eexists. cbn. repeat split. cbn. lia. }
    destruct Hst1 as (new_users & Hu & Ht & Hlen).
    destruct Hrow as [[_ ->]|(t & s & s2 & u & -> & _ & -> & _)].
    - exists new_users, []. rewrite app_nil_r. auto.
    - exists new_users, [t]. cbn. rewrite Ht. repeat split; try assumption.
      right. exists t. split; [reflexivity|]. apply Hresp. reflexivity. }
  destruct (POST_cases env now request st)
    as [(msg & _ & Hp)|[(p & _ & _ & Hp)|[(p & e & _ & _ & _ & _ & Hp)
       |[(p & _ & _ & _ & _ & Hp)|[(p & i & r & st' & _ & _ & _ & _ & Hproc & Hp)
       |(p & i & e & st' & _ & _ & _ & _ & Hproc & Hp)]]]]];
    rewrite Hp; cbn [fst snd]; try apply Hsame.
  - eapply Hrun; [exact Hproc|]. intros t Ht. inversion Ht. reflexivity.
  - eapply Hrun; [exact Hproc|]. intros t Ht. discriminate Ht.
Qed.

(** What [storeNewTransaction] does when every conversion succeeds and the
    store takes the row. *)
Lemma storeNewTransaction_runs (input : ProcessTransactionInput) (h s s2 : string)
    (v g p z : Z) (st : State) :
  (forall d, accepts d = true) ->
  Prisma.find_transaction h (transactions st) = None ->
  BigInt (in_value input) = Ok v ->
  BigInt (in_gasUsed input) = Ok g ->
  BigInt (in_gasPrice input) = Ok p ->
  in_fromAddress input = JStr s ->
  in_toAddress input = JStr s2 ->
  in_blockNumber input = NInt z ->
  exists t st', storeNewTransaction input h st = (Ok t, st').
Proof.
  intros Hacc Hnone Hv Hg Hp Hs Hs2 Hz.
  unfold storeNewTransaction, mbind, lift, ret, Prisma.user_findUnique,
    Prisma.user_create, Prisma.transaction_create, NumberToBigInt.
  rewrite (determineTransactionType_value input v Hv), Hg, Hp, Hs, Hs2, Hz.
  cbn [toLowerCase BigInt].
  destruct (Prisma.find_user (lowercase s) (users st)) as [u|] eqn:Hu;
    cbn [users transactions fresh]; rewrite ?Hu, Hacc;
    cbn [negb users transactions fresh Store.txHash]; rewrite Hnone; eauto.
Qed.

(** X5 - A late failure leaves the new user behind.  When the hash is new,
    the value and the gas figures read as integers and the sender is a string
    whose lowercased form is not yet a user, but the block number is not an
    integral number or the recipient is not a string (as in a contract
    creation, where it is [null]), [processTransaction] throws after it has
    created the user: the store keeps the new user and gains no
    transaction. *)
Theorem late_failure_leaves_user (input : ProcessTransactionInput) (h s : string)
    (v g p : Z) (st : State) :
  in_txHash input = JStr h ->
  Prisma.find_transaction h (transactions st) = None ->
  BigInt (in_value input) = Ok v ->
  BigInt (in_gasUsed input) = Ok g ->
  BigInt (in_gasPrice input) = Ok p ->
  in_fromAddress input = JStr s ->
  Prisma.find_user (lowercase s) (users st) = None ->
  (forall z, in_blockNumber input <> NInt z) \/ (forall s2, in_toAddress input <> JStr s2) ->
  exists e,
    processTransaction input st
    = (Throw e, with_user {| user_id := fresh st;
                             walletAddress := lowercase s;
                             role := USER |} st).
Proof.
  intros Hh Hnone Hv Hg Hp Hs Hu Hlate.
  unfold processTransaction, mtry_catch, mbind, lift, where_txHash,
    Prisma.transaction_findUnique, throw.
  rewrite Hh, Hnone.
  unfold storeNewTransaction, mbind, lift, ret, Prisma.user_findUnique,
    Prisma.user_create, Prisma.transaction_create, NumberToBigInt.
  rewrite (determineTransactionType_value input v Hv), Hg, Hp, Hs.
  cbn [toLowerCase]. rewrite Hu. cbn [users transactions fresh]. rewrite Hu.
  destruct (in_blockNumber input) as [|neg|z] eqn:Hz; cbn [BigInt]; eauto.
  destruct Hlate as [Hblock|Hto]; [destruct (Hblock z eq_refl)|].
  destruct (in_toAddress input) as [| |b|n|s2|items|fields] eqn:Hto';
    cbn [toLowerCase]; eauto.
  destruct (Hto s2 eq_refl).
Qed.

(** X6 - Only the first activity entry is read.  Two payloads whose activity
    arrays start with the same entry are parsed to the same result, whatever
    follows that entry. *)
Theorem only_first_activity_read (now : Z) (payload payload' entry : JsVal)
    (rest rest' : list JsVal) :
  nullish payload = false -> nullish payload' = false ->
  get_opt (get_opt payload "event") "activity" = JArr (entry :: rest) ->
  get_opt (get_opt payload' "event") "activity" = JArr (entry :: rest') ->
  first_activity payload = Ok entry
  /\ parseAlchemyWebhook now payload = parseAlchemyWebhook now payload'.
Proof.
  intros Hp Hp' Ha Ha'.
  assert (Hfirst : forall q tail, nullish q = false ->
             get_opt (get_opt q "event") "activity" = JArr (entry :: tail) ->
             first_activity q = Ok entry).
  { intros q tail Hq Hact. unfold first_activity, rbind.
    rewrite (get_not_nullish _ _ Hq), Hact. reflexivity. }
  split; [eapply Hfirst; eassumption|].
  unfold parseAlchemyWebhook.
  rewrite (Hfirst _ _ Hp Ha), (Hfirst _ _ Hp' Ha'). reflexivity.
Qed.

(** ** Network names and chain ids *)

(** The pairs of a network name and its chain id in [NETWORK_CONFIG]. *)
Lemma own_entry_in (network : string) (entries : list (string * Indexer.NetworkConfig))
    (config : Indexer.NetworkConfig) :
  IndexerLookups.own_entry network entries = Some config -> In (network, config) entries.
Proof.
  induction entries as [|[name c] rest IH]; cbn; [discriminate|].
  destruct (String.eqb_spec network name) as [->|_].
  - intros Heq. inversion Heq. auto.
  - auto.
Qed.

Lemma find_network_in (entries : list (string * Indexer.NetworkConfig)) (c : JsNumber)
    (network : string) :
  Indexer.find_network entries c = Some network ->
  exists config, In (network, config) entries /\ c = NInt (Indexer.chainId config).
Proof.
  induction entries as [|[name config] rest IH]; cbn; [discriminate|].
  destruct c as [|neg|z]; cbn.
  - intros H. destruct (IH H) as (cfg & Hin & Hc). discriminate Hc.
  - intros H. destruct (IH H) as (cfg & Hin & Hc). discriminate Hc.
  - destruct (Z.eqb_spec (Indexer.chainId config) z) as [<-|_].
    + intros Heq. inversion Heq; subst. eauto.
    + intros H. destruct (IH H) as (cfg & Hin & Hc). eauto.
Qed.

(** Each entry of the table is found by its name and by its chain id. *)
Lemma entry_found (network : string) (config : Indexer.NetworkConfig) :
  In (network, config) Indexer.NETWORK_CONFIG ->
  IndexerLookups.isSupportedNetwork network = true
  /\ IndexerLookups.getChainId network = Ok (JNum (NInt (Indexer.chainId config)))
  /\ Indexer.getNetworkFromChainId (NInt (Indexer.chainId config)) = Ok network.
Proof.
  cbn. intros Hin.
  repeat (destruct Hin as [Heq|Hin];
          [inversion Heq; subst; repeat split; reflexivity|]).
  contradiction.
Qed.

Lemma isSupportedNetwork_in (network : string) :
  IndexerLookups.isSupportedNetwork network = true ->
  exists config, In (network, config) Indexer.NETWORK_CONFIG.
Proof.
  unfold IndexerLookups.isSupportedNetwork, Indexer.SUPPORTED_NETWORKS.
  intros Hs. apply existsb_exists in Hs. destruct Hs as (name & Hin & Heq).
  apply String.eqb_eq in Heq. subst name.
  apply in_map_iff in Hin. destruct Hin as ([name config] & Hname & Hin).
  cbn in Hname. subst name. eauto.
Qed.

Lemma getChainId_number (network : string) (z : Z) :
  IndexerLookups.getChainId network = Ok (JNum (NInt z)) ->
  exists config, In (network, config) Indexer.NETWORK_CONFIG /\ Indexer.chainId config = z.
Proof.
  unfold IndexerLookups.getChainId, IndexerLookups.lookup.
  destruct (IndexerLookups.own_entry network Indexer.NETWORK_CONFIG) as [config|] eqn:Hown.
  - intros Heq. inversion Heq. apply own_entry_in in Hown. eauto.
  - destruct (existsb _ _); discriminate.
Qed.

(** X7 - Network names and chain ids correspond.  A name is a supported
    network exactly when [getChainId] returns a number for it (for a name
    inherited from [Object.prototype], such as toString, it returns
    [undefined] without throwing, and the name is not supported); the chain
    id of a supported network leads back to its name, and the name found for
    a chain id has that chain id. *)
Theorem network_names_and_chain_ids :
  (forall network,
      IndexerLookups.isSupportedNetwork network = true
      <-> exists z, IndexerLookups.getChainId network = Ok (JNum (NInt z)))
  /\ (forall network z,
        IndexerLookups.getChainId network = Ok (JNum (NInt z)) ->
        Indexer.getNetworkFromChainId (NInt z) = Ok network)
  /\ (forall c network,
        Indexer.getNetworkFromChainId c = Ok network ->
        exists z, c = NInt z
          /\ IndexerLookups.getChainId network = Ok (JNum (NInt z))
          /\ IndexerLookups.isSupportedNetwork network = true)
  /\ (forall network,
        In network IndexerLookups.Object_prototype_names ->
        IndexerLookups.getChainId network = Ok JUndefined
        /\ IndexerLookups.isSupportedNetwork network = false).
Proof.
  split; [|split; [|split]].
  - intros network. split.
    + intros Hs. destruct (isSupportedNetwork_in _ Hs) as (config & Hin).
      destruct (entry_found _ _ Hin) as (_ & Hid & _). eauto.
    + intros (z & Hid). destruct (getChainId_number _ _ Hid) as (config & Hin & _).
      apply (entry_found _ _ Hin).
  - intros network z Hid. destruct (getChainId_number _ _ Hid) as (config & Hin & <-).
    apply (entry_found _ _ Hin).
  - intros c network Hnet. unfold Indexer.getNetworkFromChainId in Hnet.
    destruct (Indexer.find_network Indexer.NETWORK_CONFIG c) as [name|] eqn:Hfind;
      [|discriminate].
    inversion Hnet; subst name.
    destruct (find_network_in _ _ _ Hfind) as (config & Hin & ->).
    destruct (entry_found _ _ Hin) as (Hs & Hid & _). eauto.
  - cbn. intros network Hin.
    repeat (destruct Hin as [<-|Hin]; [split; reflexivity|]).
    contradiction.
Qed.

(** X8 - The parser accepts exactly the configured chains.  It returns a
    record exactly when the payload has a truthy first activity entry whose
    chain id, read as [parseInt(tx.chainId || '1')], is the chain id of a
    configured network; the network name of the record is then a supported
    network whose chain id is the chain id of the record. *)
Theorem parser_accepts_configured_chains (now : Z) (payload : JsVal) :
  ((exists input, parseAlchemyWebhook now payload = Ok (Some input))
   <-> exists tx, first_activity payload = Ok tx /\ truthy tx = true
         /\ configured (chain_read (get_opt tx "chainId")))
  /\ forall input,
       parseAlchemyWebhook now payload = Ok (Some input) ->
       IndexerLookups.isSupportedNetwork (in_network input) = true
       /\ IndexerLookups.getChainId (in_network input) = Ok (JNum (in_chainId input)).
Proof.
  split.
  - split.
    + intros (input & Hparse). apply parseAlchemyWebhook_fields in Hparse.
      destruct Hparse as (tx & Hact & Ht & _ & _ & _ & Hnet & _).
      exists tx. repeat split; try assumption.
      apply getNetworkFromChainId_configured. eauto.
    + intros (tx & Hact & Ht & Hconf).
      apply getNetworkFromChainId_configured in Hconf. destruct Hconf as (network & Hnet).
      eexists. apply parseAlchemyWebhook_some. exists tx. repeat split; try assumption.
      rewrite buildInput_eq by assumption. unfold rbind. rewrite Hnet. reflexivity.
  - intros input Hparse. apply parseAlchemyWebhook_fields in Hparse.
    destruct Hparse as (tx & _ & _ & _ & _ & Hchain & Hnet & _).
    unfold Indexer.getNetworkFromChainId in Hnet.
    destruct (Indexer.find_network Indexer.NETWORK_CONFIG (chain_read (get_opt tx "chainId")))
      as [name|] eqn:Hfind; [|discriminate].
    inversion Hnet; subst name.
    destruct (find_network_in _ _ _ Hfind) as (config & Hin & Hz).
    destruct (entry_found _ _ Hin) as (Hs & Hid & _).
    rewrite Hchain, Hz. auto.
Qed.


(** X10 - Without a secret the signature header is not looked at.  When no
    signing secret is configured (or it is the empty string), two requests
    with the same body are answered alike and leave the same store, whatever
    their signature headers are. *)
Theorem signature_ignored_without_secret (env : Env) (now : Z) (text : string)
    (signature signature' : option string) (st : State) :
  absent (ALCHEMY_WEBHOOK_SECRET env) = true ->
  verifyWebhookSignature env text signature = Ok true
  /\ POST env now {| body := text; x_alchemy_signature := signature |} st
     = POST env now {| body := text; x_alchemy_signature := signature' |} st.
Proof.
  intros Hno.
  assert (Hver : forall sig, verifyWebhookSignature env text sig = Ok true).
  { intros sig. unfold verifyWebhookSignature. rewrite Hno. reflexivity. }
  split; [apply Hver|].
  unfold POST, POST_try. cbn [body x_alchemy_signature].
  unfold mbind, lift. rewrite !Hver. reflexivity.
Qed.

(** X11 - The answers of the endpoint.  The status is 200, 400, 401 or 500;
    it is 200 exactly when the body is a success body, and then the body says
    processed and names the hash and the identifier of a row that the store
    holds; an answer 400 or 401 leaves the store as it was. *)
Theorem POST_answers (env : Env) (now : Z) (request : Request) (st : State) :
  let response := fst (POST env now request st) in
  let st' := snd (POST env now request st) in
  (status response = 200 \/ status response = 400
   \/ status response = 401 \/ status response = 500)
  /\ (status response = 200 <-> exists d, json response = SuccessBody d)
  /\ (forall d, json response = SuccessBody d ->
        processed d = true
        /\ exists t, In t (transactions st')
             /\ id t = transactionId d /\ Store.txHash (data t) = ApiUtils.txHash d)
  /\ (status response = 400 \/ status response = 401 -> st' = st).
Proof.
  cbv zeta.
  destruct (POST_cases env now request st)
    as [(msg & _ & Hp)|[(p & _ & _ & Hp)|[(p & e & _ & _ & _ & _ & Hp)
       |[(p & _ & _ & _ & _ & Hp)|[(p & i & r & st' & _ & _ & _ & _ & Hrun & Hp)
       |(p & i & e & st' & _ & _ & _ & _ & Hrun & Hp)]]]]];
    rewrite Hp; cbn [fst snd status json errorResponse successResponse].
  1-4: repeat split; auto; try discriminate;
       try (intros (d & Hd); discriminate Hd); try (intros [H|H]; discriminate H).
  - repeat split; auto; try (intros [H|H]; discriminate H).
    + eauto.
    + inversion H. reflexivity.
    + inversion H. cbn. exists r. repeat split.
      eapply find_transaction_hash, processTransaction_ok, Hrun.
  - destruct (processTransaction_throw _ _ _ _ Hrun) as (_ & name & msg & ->).
    cbn. destruct (name =? "PrismaClientKnownRequestError")%string;
      cbn; repeat split; auto; try discriminate;
      try (intros (d & Hd); discriminate Hd); try (intros [H|H]; discriminate H).
Qed.





(** X13 - When ingestion succeeds.  With a store that takes every row,
    [processTransaction] returns a row exactly when the hash is a string and
    either a row with that hash is stored, or the value, the gas used and the
    gas price read as integers, the sender and the recipient are strings and
    the block number is an integral number. *)
Theorem processTransaction_succeeds_iff (input : ProcessTransactionInput) (st : State) :
  (forall d, accepts d = true) ->
  (exists t st', processTransaction input st = (Ok t, st'))
  <-> exists h, in_txHash input = JStr h
      /\ ((exists t, Prisma.find_transaction h (transactions st) = Some t)
          \/ ((exists v, BigInt (in_value input) = Ok v)
              /\ (exists g, BigInt (in_gasUsed input) = Ok g)
              /\ (exists p, BigInt (in_gasPrice input) = Ok p)
              /\ (exists s, in_fromAddress input = JStr s)
              /\ (exists s2, in_toAddress input = JStr s2)
              /\ (exists z, in_blockNumber input = NInt z))).
Proof.
  intros Hacc. split.
  - intros (t & st' & Hrun). apply processTransaction_cases in Hrun.
    destruct Hrun as [(h & t' & Hh & Hfind & _)|[(h & Hh & Hnone & Hrun)|(_ & Hr & _)]].
    + exists h. split; [assumption|]. left. eauto.
    + exists h. split; [assumption|]. right.
      apply storeNewTransaction_ok in Hrun.
      destruct Hrun as (ty & g & p & a & b & toA & u & Hty & Hg & Hp & Ha & Hb & HtoA & _).
      apply toLowerCase_string in Ha. destruct Ha as (s & Hs & _).
      apply toLowerCase_string in HtoA. destruct HtoA as (s2 & Hs2 & _).
      repeat split; eauto.
      * unfold determineTransactionType, rbind in Hty.
        destruct (BigInt (in_value input)) as [v|e]; [eauto|discriminate].
      * unfold NumberToBigInt in Hb.
        destruct (in_blockNumber input) as [|neg|z]; try discriminate Hb. eauto.
    + discriminate Hr.
  - intros (h & Hh & [(t & Hfind)|((v & Hv) & (g & Hg) & (p & Hp) & (s & Hs) & (s2 & Hs2) & (z & Hz))]).
    + exists t, st. eapply processTransaction_existing; eassumption.
    + destruct (Prisma.find_transaction h (transactions st)) as [t|] eqn:Hfind.
      * exists t, st. eapply processTransaction_existing; eassumption.
      * destruct (storeNewTransaction_runs input h s s2 v g p z st Hacc Hfind Hv Hg Hp Hs Hs2 Hz)
          as (t & st' & Hrun).
        exists t, st'.
        unfold processTransaction, mtry_catch, mbind, lift, where_txHash,
          Prisma.transaction_findUnique.
        rewrite Hh, Hfind, Hrun. reflexivity.
Qed.

(** ** The later status update *)

Lemma update_row_ids (h : string) (s : TransactionStatus) (rows : list Transaction) :
  map id (Lifecycle.update_row h s rows) = map id rows
  /\ map (fun t => Store.txHash (data t)) (Lifecycle.update_row h s rows)
     = map (fun t => Store.txHash (data t)) rows.
Proof.
  induction rows as [|t rows [IHid IHhash]]; [split; reflexivity|].
  cbn. destruct (Store.txHash (data t) =? h)%string; cbn; split; congruence.
Qed.

Lemma update_row_found (h : string) (s : TransactionStatus) (rows : list Transaction)
    (t : Transaction) :
  Prisma.find_transaction h rows = Some t ->
  Prisma.find_transaction h (Lifecycle.update_row h s rows) = Some (Lifecycle.with_status s t).
Proof.
  unfold Prisma.find_transaction.
  induction rows as [|r rows IH]; cbn; [discriminate|].
  destruct (Store.txHash (data r) =? h)%string eqn:Heq; cbn.
  - intros Hf. inversion Hf; subst. rewrite Heq. reflexivity.
  - rewrite Heq. exact IH.
Qed.

Lemma update_row_others (h : string) (s : TransactionStatus) (rows : list Transaction)
    (t : Transaction) :
  Store.txHash (data t) <> h ->
  (In t (Lifecycle.update_row h s rows) <-> In t rows).
Proof.
  intros Hother. induction rows as [|r rows IH]; [reflexivity|].
  cbn. destruct (String.eqb_spec (Store.txHash (data r)) h) as [Heq|Hneq]; cbn.
  - split; intros [Hr|Hin]; auto; exfalso; subst t; [|congruence].
    apply Hother. exact Heq.
  - rewrite IH. reflexivity.
Qed.

(** X14 - A status update and a later redelivery.  [updateTransactionStatus]
    on a hash the store does not hold is refused with a known request error
    and changes nothing.  On a stored hash it returns the row with the new
    status and stores it in place: users, identifiers, hashes and every
    other row stay as they are; the time of the update is recorded; the
    error message is replaced when one is given and kept when it is left
    out.  A webhook redelivery of that hash afterwards returns the row with
    the updated status and does not write. *)
Theorem status_update_then_redelivery (h : string) (s : TransactionStatus)
    (errorMessage : option string) (now : Z) (tr : Lifecycle.Tracked) :
  let outcome := Lifecycle.updateTransactionStatus h s errorMessage now tr in
  (Prisma.find_transaction h (transactions (Lifecycle.store tr)) = None ->
   snd outcome = tr
   /\ exists e, fst outcome = Throw e /\ request_error e
        /\ handleApiError e = errorResponse "Database error" 500 None)
  /\ forall t,
       Prisma.find_transaction h (transactions (Lifecycle.store tr)) = Some t ->
       let st' := Lifecycle.store (snd outcome) in
       fst outcome = Ok (Lifecycle.with_status s t)
       /\ Store.status (data (Lifecycle.with_status s t)) = s
       /\ users st' = users (Lifecycle.store tr)
       /\ fresh st' = fresh (Lifecycle.store tr)
       /\ map id (transactions st') = map id (transactions (Lifecycle.store tr))
       /\ map (fun r => Store.txHash (data r)) (transactions st')
          = map (fun r => Store.txHash (data r)) (transactions (Lifecycle.store tr))
       /\ (forall r, Store.txHash (data r) <> h ->
             (In r (transactions st') <-> In r (transactions (Lifecycle.store tr))))
       /\ Lifecycle.column (id t) (Lifecycle.updatedAts (snd outcome)) = Some now
       /\ Lifecycle.column (id t) (Lifecycle.errorMessages (snd outcome))
          = match errorMessage with
            | Some message => Some message
            | None => Lifecycle.column (id t) (Lifecycle.errorMessages tr)
            end
       /\ forall input, in_txHash input = JStr h ->
            processTransaction input st' = (Ok (Lifecycle.with_status s t), st').
Proof.
  cbv zeta. unfold Lifecycle.updateTransactionStatus. split.
  - intros ->. cbn. split; [reflexivity|].
    eexists. split; [reflexivity|]. split; [eexists; reflexivity|reflexivity].
  - intros t Hfind. rewrite Hfind. cbn [fst snd Lifecycle.store users transactions fresh
                                          Lifecycle.updatedAts Lifecycle.errorMessages].
    destruct (update_row_ids h s (transactions (Lifecycle.store tr))) as [Hids Hhashes].
    repeat split; try assumption.
    + apply update_row_others; assumption.
    + apply update_row_others; assumption.
    + cbn. rewrite Nat.eqb_refl. reflexivity.
    + destruct errorMessage; [cbn; rewrite Nat.eqb_refl|]; reflexivity.
    + intros input Hh. apply (processTransaction_existing input h); [assumption|].
      cbn [transactions]. apply update_row_found, Hfind.
Qed.

(** ** The user endpoint *)

Lemma address_format_present (a : string) :
  UserApi.address_format a = true -> absent (Some a) = false.
Proof. destruct a; [discriminate|reflexivity]. Qed.

(** X15 - Looking a user up after ingestion.  [GET /api/user] answers 400
    when the address is missing or empty and when it is not 0x followed by
    forty hexadecimal digits, and 404 when no user has its lowercased form.
    After [processTransaction] has stored a new transaction, a lookup with an
    address of the right format whose lowercased form is the stored sender
    address, in any casing, answers 200 with the user the transaction refers
    to. *)
Theorem user_lookup_after_ingestion (st : State) :
  (UserApi.user_status (UserApi.GET None st) = 400
   /\ UserApi.user_status (UserApi.GET (Some EmptyString) st) = 400)
  /\ (forall a, UserApi.address_format a = false ->
        UserApi.user_status (UserApi.GET (Some a) st) = 400)
  /\ (forall a, UserApi.address_format a = true ->
        Prisma.find_user (lowercase a) (users st) = None ->
        UserApi.GET (Some a) st
        = {| UserApi.user_json := UserApi.UserErrorBody "User not found";
             UserApi.user_status := 404 |})
  /\ forall input t st' a,
       processTransaction input st = (Ok t, st') -> ~ In t (transactions st) ->
       UserApi.address_format a = true ->
       lowercase a = fromAddress (data t) ->
       exists u,
         UserApi.GET (Some a) st'
         = {| UserApi.user_json := UserApi.UserBody u; UserApi.user_status := 200 |}
         /\ user_id u = userId (data t)
         /\ walletAddress u = fromAddress (data t).
Proof.
  split; [split; reflexivity|]. split; [|split].
  - intros a Hbad. unfold UserApi.GET.
    destruct (absent (Some a)); [reflexivity|].
    cbn [text_of]. rewrite Hbad. reflexivity.
  - intros a Hgood Hnone. unfold UserApi.GET.
    rewrite (address_format_present a Hgood). cbn [text_of].
    rewrite Hgood, Hnone. reflexivity.
  - intros input t st' a Hrun Hnew Hgood Hlower.
    apply processTransaction_new in Hrun; [|assumption].
    apply storeNewTransaction_ok in Hrun.
    destruct Hrun as (ty & g & p & a0 & b & toA & u & _ & _ & _ & _ & _ & _ & Hfound & _
                      & _ & _ & _ & _ & Huid & _ & _ & _ & _ & Hfrom & _).
    exists u. unfold UserApi.GET.
    rewrite (address_format_present a Hgood). cbn [text_of].
    rewrite Hgood, Hlower, Hfrom, Hfound. cbn [negb].
    apply find_user_some in Hfound. destruct Hfound as [_ Hw].
    repeat split; congruence.
Qed.

End Effects.

(** ** The further properties at concrete requests *)

Module ConcreteExtras.

Import Processor ApiUtils Webhook Demo Scenarios.

Lemma empty_store_sound : identifiers_sound Store.empty.
Proof.
  unfold identifiers_sound, hash_unique. cbn.
  repeat split; try constructor; intros x [].
Qed.

Lemma parsed_inputs :
  parseAlchemyWebhook 1000 (envelope transfer_entry) = Ok (Some transfer_input)
  /\ parseAlchemyWebhook 1000 (envelope creation_entry) = Ok (Some creation_input)
  /\ parseAlchemyWebhook 1000 (envelope bare_entry) = Ok (Some bare_input).
Proof. repeat split; vm_compute; reflexivity. Qed.

(** The store the transfer leaves behind is sound. *)
Lemma POST_keeps_identifiers_sound_witness : identifiers_sound after_transfer.
Proof.
  exact (POST_keeps_identifiers_sound (P := platform) no_secret 1000
           (request_of (envelope transfer_entry) None) Store.empty empty_store_sound).
Defined.

Lemma POST_keeps_owner_known_witness : owner_known after_transfer.
Proof.
  refine (POST_keeps_owner_known (P := platform) no_secret 1000
            (request_of (envelope transfer_entry) None) Store.empty _).
  intros t [].
Defined.

Lemma POST_keeps_addresses_lowercase_witness : addresses_lowercase after_transfer.
Proof.
  refine (POST_keeps_addresses_lowercase (P := platform) no_secret 1000
            (request_of (envelope transfer_entry) None) Store.empty _).
  split; intros x [].
Defined.

(** A redelivery of the transfer adds nothing to the store it left. *)
Lemma POST_appends_only_witness :
  exists new_users new_rows,
    users (snd (POST no_secret 2000 (request_of (envelope transfer_entry) None) after_transfer))
    = users after_transfer ++ new_users
    /\ transactions
         (snd (POST no_secret 2000 (request_of (envelope transfer_entry) None) after_transfer))
       = transactions after_transfer ++ new_rows
    /\ (List.length new_users <= 1)%nat.
Proof.
  destruct (POST_appends_only (P := platform) no_secret 2000
              (request_of (envelope transfer_entry) None) after_transfer)
    as (new_users & new_rows & Hu & Ht & Hlen & _).
  exists new_users, new_rows. auto.
Defined.

(** A contract creation from a new sender throws at the missing recipient
    and leaves the sender's user in the store. *)
Lemma late_failure_leaves_user_witness :
  exists e,
    processTransaction creation_input Store.empty
    = (Throw e,
       {| users := [{| user_id := 0;
                       walletAddress := "0xabcd000000000000000000000000000000001234";
                       role := USER |}];
          transactions := [];
          fresh := 1 |}).
Proof.
  destruct (late_failure_leaves_user (P := platform) creation_input "0x9991" alice
              0 53000 30000000000 Store.empty
              eq_refl eq_refl ltac:(vm_compute; reflexivity) ltac:(vm_compute; reflexivity)
              ltac:(vm_compute; reflexivity) eq_refl eq_refl
              ltac:(right; intros s2 H; discriminate H))
    as (e & Hrun).
  exists e. exact Hrun.
Defined.

(** The second entry of a batch is not read. *)
Lemma only_first_activity_read_witness :
  parseAlchemyWebhook 1000 batch = parseAlchemyWebhook 1000 (envelope transfer_entry).
Proof.
  exact (proj2 (only_first_activity_read (P := platform) 1000 batch (envelope transfer_entry)
                  transfer_entry [call_entry] [] eq_refl eq_refl eq_refl eq_refl)).
Defined.

Lemma network_names_and_chain_ids_witness :
  Indexer.getNetworkFromChainId (NInt 8453) = Ok "base"
  /\ IndexerLookups.getChainId "toString" = Ok JUndefined
  /\ IndexerLookups.isSupportedNetwork "toString" = false.
Proof.
  destruct (network_names_and_chain_ids (P := platform)) as (_ & Hback & _ & Hinherited).
  split; [apply Hback; reflexivity|].
  apply Hinherited. cbn. tauto.
Defined.

Lemma parser_accepts_configured_chains_witness :
  IndexerLookups.isSupportedNetwork (in_network transfer_input) = true
  /\ IndexerLookups.getChainId (in_network transfer_input) = Ok (JNum (in_chainId transfer_input)).
Proof.
  destruct (parser_accepts_configured_chains (P := platform) 1000 (envelope transfer_entry))
    as [_ Hnet].
  apply Hnet. vm_compute. reflexivity.
Defined.


(** Without a secret, a request with any signature is answered like the
    unsigned one. *)
Lemma signature_ignored_without_secret_witness :
  POST no_secret 1000 (request_of (envelope transfer_entry) (Some "not-a-signature")) Store.empty
  = POST no_secret 1000 (request_of (envelope transfer_entry) None) Store.empty.
Proof.
  exact (proj2 (signature_ignored_without_secret (P := platform) no_secret 1000
                  (stringify (envelope transfer_entry)) (Some "not-a-signature") None
                  Store.empty eq_refl)).
Defined.

Lemma POST_answers_witness :
  status (fst (POST no_secret 1000 (request_of (envelope transfer_entry) None) Store.empty)) = 200
  <-> exists d,
        json (fst (POST no_secret 1000 (request_of (envelope transfer_entry) None) Store.empty))
        = SuccessBody d.
Proof.
  exact (proj1 (proj2 (POST_answers (P := platform) no_secret 1000
                         (request_of (envelope transfer_entry) None) Store.empty))).
Defined.


(** The transfer meets the conditions, so it is stored. *)
Lemma processTransaction_succeeds_iff_witness :
  exists t st', processTransaction transfer_input Store.empty = (Ok t, st').
Proof.
  apply (processTransaction_succeeds_iff (P := platform) transfer_input Store.empty
           (fun d => eq_refl)).
  exists "0xaaa1". split; [reflexivity|]. right.
  repeat split; eexists; vm_compute; reflexivity.
Defined.

(** The stored transfer is marked CONFIRMED without a message; its old
    message stays, and a redelivery returns it as CONFIRMED. *)
Lemma status_update_then_redelivery_witness :
  exists t,
    Prisma.find_transaction "0xaaa1" (transactions after_transfer) = Some t
    /\ (let outcome :=
          Lifecycle.updateTransactionStatus "0xaaa1" CONFIRMED None 5000 tracked_after_transfer in
        processTransaction transfer_input (Lifecycle.store (snd outcome))
        = (Ok (Lifecycle.with_status CONFIRMED t), Lifecycle.store (snd outcome))
        /\ Lifecycle.column (id t) (Lifecycle.errorMessages (snd outcome))
           = Some "execution reverted"
        /\ Lifecycle.column (id t) (Lifecycle.updatedAts (snd outcome)) = Some 5000).
Proof.
  eexists. split; [vm_compute; reflexivity|].
  match goal with
  | |- context [Lifecycle.with_status CONFIRMED ?t] =>
      destruct (proj2 (status_update_then_redelivery (P := platform) "0xaaa1" CONFIRMED None
                         5000 tracked_after_transfer) t ltac:(vm_compute; reflexivity))
        as (_ & _ & _ & _ & _ & _ & _ & Htime & Hmessage & Hagain)
  end.
  cbv zeta. split; [apply Hagain; reflexivity|].
  split; [rewrite Hmessage; vm_compute; reflexivity|exact Htime].
Defined.

(** After the transfer, the sender is found under her address in
    capitals. *)
Lemma user_lookup_after_ingestion_witness :
  UserApi.address_format alice_capitals = true
  /\ exists u,
       UserApi.GET (Some alice_capitals) after_transfer
       = {| UserApi.user_json := UserApi.UserBody u; UserApi.user_status := 200 |}
       /\ walletAddress u = "0xabcd000000000000000000000000000000001234".
Proof.
  split; [vm_compute; reflexivity|].
  destruct (user_lookup_after_ingestion (P := platform) Store.empty) as (_ & _ & _ & Hfound).
  assert (Hrun : exists t, processTransaction transfer_input Store.empty = (Ok t, after_transfer)).
  { eexists. vm_compute. reflexivity. }
  destruct Hrun as (t & Hrun).
  assert (Hfrom : fromAddress (data t) = "0xabcd000000000000000000000000000000001234").
  { vm_compute in Hrun. inversion Hrun. reflexivity. }
  destruct (Hfound transfer_input t after_transfer alice_capitals Hrun ltac:(intros [])
              ltac:(vm_compute; reflexivity) ltac:(rewrite Hfrom; vm_compute; reflexivity))
    as (u & Hget & _ & Hwallet).
  exists u. split; [exact Hget|]. congruence.
Defined.

End ConcreteExtras.
